(** * Transcript post-processing of [transcribe_from_link.py]

    A shallow embedding of the three pure functions of the script,
    [timestamp_to_seconds], [seconds_to_timestamp] and [process_transcript],
    together with the pieces of Python they call: [str.strip],
    [str.split], [str.splitlines], [int], the [:02] format specification,
    [str.join] and the backtracking matcher behind [re.compile(...).match].

    Modelling conventions.
    - A Python [str] is a [string]; a character is a code point in the range
      0..255, so the character classes below are the Unicode ones restricted
      to that range.
    - A Python [int] is a [Z].  CPython refuses to convert between [int]
      and [str] when the notation has more than [max_str_digits] = 4300
      digits: [seconds_to_timestamp_exn] is the call with that refusal and
      [seconds_to_timestamp] the text it returns; inside [process_transcript]
      the call is made on the time of a caption, which is below 362440, and
      returns.  [int] is modelled without the refusal: a field of a
      timestamp that a caption line can hold has two digits.
    - [None] is the [None] of an option type; an exception is the [Raised]
      constructor of [outcome].
    - [logging.warning] appends to a list of warnings carried by the loop
      state. *)

From Stdlib Require Import String Ascii List ZArith NArith Bool Lia Arith.
Import ListNotations.

Local Open Scope string_scope.
Local Open Scope Z_scope.

(** ** Characters *)

Module PyChar.

Definition code (c : ascii) : N := N_of_ascii c.

Definition in_range (lo hi : N) (c : ascii) : bool :=
  ((lo <=? code c) && (code c <=? hi))%N.

(** [str.isspace] on one character; also the class [\s] of [re] and the
    characters removed by [str.strip()]. *)
Definition isspace (c : ascii) : bool :=
  in_range 9 13 c || in_range 28 32 c
  || (code c =? 133)%N || (code c =? 160)%N.

(** The white space [int()] skips around a literal: the C white space
    and the two Unicode spaces below 256; the separators 28..31 are
    not accepted there. *)
Definition isspace_int (c : ascii) : bool :=
  in_range 9 13 c || (code c =? 32)%N
  || (code c =? 133)%N || (code c =? 160)%N.

(** Line boundaries of [str.splitlines]. *)
Definition islinebreak (c : ascii) : bool :=
  in_range 10 13 c || in_range 28 30 c || (code c =? 133)%N.

(** [str.isdecimal] on one character; also the class [\d] of [re]. *)
Definition isdecimal (c : ascii) : bool := in_range 48 57 c.

Definition digit_value (c : ascii) : option Z :=
  if isdecimal c then Some (Z.of_N (code c) - 48) else None.

Definition digit_char (d : Z) : ascii := ascii_of_N (Z.to_N (48 + d)).

Definition LF : ascii := ascii_of_N 10.
Definition CR : ascii := ascii_of_N 13.

End PyChar.

(** ** Strings *)

Module PyStr.

Import PyChar.

Definition nl : string := String LF "".

Fixpoint lstrip_by (p : ascii -> bool) (s : string) : string :=
  match s with
  | "" => ""
  | String c s' => if p c then lstrip_by p s' else s
  end.

Fixpoint rstrip_by (p : ascii -> bool) (s : string) : string :=
  match s with
  | "" => ""
  | String c s' =>
      match rstrip_by p s' with
      | "" => if p c then "" else String c ""
      | r => String c r
      end
  end.

Definition strip_by (p : ascii -> bool) (s : string) : string :=
  rstrip_by p (lstrip_by p s).

(** [s.strip()] *)
Definition strip (s : string) : string := strip_by isspace s.

(** [s.split(sep)] for a one-character separator: never empty. *)
Fixpoint split (sep : ascii) (s : string) : list string :=
  match s with
  | "" => [""]
  | String c s' =>
      if Ascii.eqb c sep then "" :: split sep s'
      else match split sep s' with
           | h :: t => String c h :: t
           | [] => [String c ""]
           end
  end.

Fixpoint rev_onto (s acc : string) : string :=
  match s with
  | "" => acc
  | String c s' => rev_onto s' (String c acc)
  end.

Definition rev (s : string) : string := rev_onto s "".

(** [s.splitlines()]: [cur] is the line being read, reversed.  A line
    is closed at every boundary, "\r\n" counts as one boundary, and the
    text after the last boundary is a line only when it is not empty. *)
Fixpoint splitlines_from (cur : string) (s : string) : list string :=
  match s with
  | "" => match cur with "" => [] | _ => [rev cur] end
  | String c s' =>
      if islinebreak c then
        if Ascii.eqb c CR then
          match s' with
          | String c' s'' =>
              if Ascii.eqb c' LF then rev cur :: splitlines_from "" s''
              else rev cur :: splitlines_from "" s'
          | "" => rev cur :: splitlines_from "" s'
          end
        else rev cur :: splitlines_from "" s'
      else splitlines_from (String c cur) s'
  end.

Definition splitlines (s : string) : list string := splitlines_from "" s.

(** [sep.join(parts)] *)
Definition join (sep : string) (parts : list string) : string :=
  String.concat sep parts.

(** The truth value of a [str]: [bool(s)]. *)
Definition truthy (s : string) : bool :=
  match s with "" => false | _ => true end.

(** [filter(None, parts)] on a list of strings. *)
Definition filter_none (parts : list string) : list string :=
  filter truthy parts.

End PyStr.

(** ** Exceptions *)

Inductive py_exn : Type :=
| ValueError
| IndexError.

Inductive outcome (A : Type) : Type :=
| Returned (a : A)
| Raised (e : py_exn).

Arguments Returned {A} a.
Arguments Raised {A} e.

Definition bind {A B : Type} (m : outcome A) (f : A -> outcome B) : outcome B :=
  match m with
  | Returned a => f a
  | Raised e => Raised e
  end.

Notation "x <- m ;; k" := (bind m (fun x => k))
  (at level 61, m at next level, right associativity).

(** ** Integers *)

Module PyInt.

Import PyChar PyStr.

(** The digits of an [int] literal in base 10: decimal digits, with a
    single underscore allowed between two digits.  [after_digit] tells
    whether the previous character was a digit. *)
Fixpoint digits_value (acc : Z) (after_digit : bool) (s : string)
  : option Z :=
  match s with
  | "" => if after_digit then Some acc else None
  | String c s' =>
      match digit_value c with
      | Some d => digits_value (10 * acc + d) true s'
      | None =>
          if Ascii.eqb c "_" && after_digit
          then digits_value acc false s'
          else None
      end
  end.

(** [int(s)] for a [str]: white space around, an optional sign, digits.
    A literal of more than 4300 digits, which CPython refuses, does not
    occur in the timestamps of caption lines and is read like the others. *)
Definition int (s : string) : outcome Z :=
  let body :=
    match strip_by isspace_int s with
    | String "+" r => digits_value 0 false r
    | String "-" r => option_map Z.opp (digits_value 0 false r)
    | r => digits_value 0 false r
    end in
  match body with
  | Some n => Returned n
  | None => Raised ValueError
  end.

(** [list(map(int, xs))]: the first failure is raised. *)
Fixpoint map_int (xs : list string) : outcome (list Z) :=
  match xs with
  | [] => Returned []
  | x :: xs' =>
      n <- int x ;;
      ns <- map_int xs' ;;
      Returned (n :: ns)
  end.

(** The decimal digits of a non-negative [n], most significant first,
    put in front of [acc]; [fuel] bounds the number of digits. *)
Fixpoint digits_onto (fuel : nat) (n : Z) (acc : string) : string :=
  let acc' := String (digit_char (n mod 10)) acc in
  match fuel with
  | O => acc'
  | S fuel' => if n <? 10 then acc' else digits_onto fuel' (n / 10) acc'
  end.

(** The text of [str(n)] for [n >= 0]. *)
Definition str_nonneg (n : Z) : string :=
  digits_onto (Z.to_nat (Z.log2 n)) n "".

Fixpoint zeros (k : nat) : string :=
  match k with
  | O => ""
  | S k' => String "0" (zeros k')
  end.

(** The text of [format(n, "02")]: width 2, filled with zeros after the
    sign. *)
Definition format_02 (n : Z) : string :=
  if n <? 0 then
    let d := str_nonneg (- n) in
    "-" ++ zeros (1 - String.length d) ++ d
  else
    let d := str_nonneg n in
    zeros (2 - String.length d) ++ d.

(** [sys.get_int_max_str_digits()]: CPython refuses to convert
    between [int] and [str] when the decimal notation has more digits than
    this, and raises [ValueError]. *)
Definition max_str_digits : Z := 4300.

(** [format(n, "02")] as CPython evaluates it: [ValueError] when [n] has
    more than [max_str_digits] digits, the text [format_02 n] otherwise. *)
Definition format_02_exn (n : Z) : outcome string :=
  if 10 ^ max_str_digits <=? Z.abs n then Raised ValueError
  else Returned (format_02 n).

End PyInt.


Import PyChar PyStr PyInt.

(** ** Regular expressions

    The part of [re] that [line_regex] uses, matched the way [re] does
    it: by backtracking, the first alternative that lets the rest of the
    pattern succeed wins.  The matcher is in continuation-passing style:
    [k] is the rest of the pattern.  A position in the subject is the pair
    of the text already consumed, reversed, and the text still to read. *)

Module Re.

Inductive regex : Type :=
| Eps                                   (* the empty pattern *)
| Bol                                   (* ^ *)
| Eol                                   (* $ *)
| Class (p : ascii -> bool)             (* one character of a class *)
| Seq (r1 r2 : regex)                   (* r1 r2 *)
| Opt (r : regex)                       (* (?:r)?  greedy *)
| Star (greedy : bool) (p : ascii -> bool)   (* p*  or  p*? *)
| Group (n : nat) (r : regex).          (* (r), the n-th group *)

Definition Chr (c : ascii) : regex := Class (Ascii.eqb c).
Definition Plus (greedy : bool) (p : ascii -> bool) : regex :=
  Seq (Class p) (Star greedy p).

Definition captures : Type := nat -> option string.

Definition no_captures : captures := fun _ => None.

Definition set_group (n : nat) (v : string) (caps : captures) : captures :=
  fun m => if Nat.eqb m n then Some v else caps m.

(** The text read between two positions, given the reversed consumed
    text at both. *)
Definition taken (pre pre' : string) : string :=
  rev (String.substring 0 (String.length pre' - String.length pre) pre').

Section Matcher.

Context {R : Type}.

Fixpoint star_greedy (p : ascii -> bool) (pre s : string)
         (k : string -> string -> option R) : option R :=
  match s with
  | String c s' =>
      if p c then
        match star_greedy p (String c pre) s' k with
        | Some r => Some r
        | None => k pre s
        end
      else k pre s
  | "" => k pre s
  end.

Fixpoint star_lazy (p : ascii -> bool) (pre s : string)
         (k : string -> string -> option R) : option R :=
  match k pre s with
  | Some r => Some r
  | None =>
      match s with
      | String c s' => if p c then star_lazy p (String c pre) s' k else None
      | "" => None
      end
  end.

Fixpoint run (r : regex) (pre s : string) (caps : captures)
         (k : string -> string -> captures -> option R) : option R :=
  match r with
  | Eps => k pre s caps
  | Bol => match pre with "" => k pre s caps | _ => None end
  | Eol =>
      match s with
      | "" => k pre s caps
      | String c "" => if Ascii.eqb c LF then k pre s caps else None
      | _ => None
      end
  | Class p =>
      match s with
      | String c s' => if p c then k (String c pre) s' caps else None
      | "" => None
      end
  | Seq r1 r2 =>
      run r1 pre s caps (fun pre' s' caps' => run r2 pre' s' caps' k)
  | Opt r1 =>
      match run r1 pre s caps k with
      | Some x => Some x
      | None => k pre s caps
      end
  | Star true p => star_greedy p pre s (fun pre' s' => k pre' s' caps)
  | Star false p => star_lazy p pre s (fun pre' s' => k pre' s' caps)
  | Group n r1 =>
      run r1 pre s caps
          (fun pre' s' caps' => k pre' s' (set_group n (taken pre pre') caps'))
  end.

End Matcher.

(** [pattern.match(s)]: anchored at the start of [s]. *)
Definition match_ (r : regex) (s : string) : option captures :=
  run r "" s no_captures (fun _ _ caps => Some caps).

Fixpoint seq (rs : list regex) : regex :=
  match rs with
  | [] => Eps
  | [r] => r
  | r :: rs' => Seq r (seq rs')
  end.

(** The classes of the pattern. *)
Definition digit : ascii -> bool := isdecimal.
Definition space : ascii -> bool := isspace.
Definition not_colon (c : ascii) : bool := negb (Ascii.eqb c ":").
Definition dot (c : ascii) : bool := negb (Ascii.eqb c LF).

End Re.

(** ** The timestamp codec *)

(** [xs[0]] *)
Definition item0 (xs : list string) : outcome string :=
  match xs with
  | x :: _ => Returned x
  | [] => Raised IndexError
  end.

(** The body of the [try] of [timestamp_to_seconds]; falling off the end
    of the function returns [None]. *)
Definition timestamp_to_seconds_try (ts_str : string) : outcome (option Z) :=
  ts_str <- item0 (split "." ts_str) ;;
  parts <- map_int (split ":" ts_str) ;;
  match parts with
  | [h; m; s] => Returned (Some (h * 3600 + m * 60 + s))
  | [m; s] => Returned (Some (m * 60 + s))
  | _ => Returned None
  end.

(** [except Exception: return None] *)
Definition timestamp_to_seconds (ts_str : string) : option Z :=
  match timestamp_to_seconds_try ts_str with
  | Returned v => v
  | Raised _ => None
  end.

(** The text [seconds_to_timestamp(total_seconds)] returns. *)
Definition seconds_to_timestamp (total_seconds : option Z) : string :=
  let total_seconds :=
    match total_seconds with
    | None => 0
    | Some n => if n <? 0 then 0 else n
    end in
  let (hours, remainder) := Z.div_eucl total_seconds 3600 in
  let (minutes, seconds) := Z.div_eucl remainder 60 in
  format_02 hours ++ ":" ++ format_02 minutes ++ ":" ++ format_02 seconds.

(** The call [seconds_to_timestamp(total_seconds)], with what can go
    wrong in it: the f-string formats the hours, the minutes and the
    seconds in turn, and [format] refuses a number of more than
    [max_str_digits] digits.  When the call returns, it returns the text
    [seconds_to_timestamp total_seconds]. *)
Definition seconds_to_timestamp_exn (total_seconds : option Z)
  : outcome string :=
  let total_seconds :=
    match total_seconds with
    | None => 0
    | Some n => if n <? 0 then 0 else n
    end in
  let (hours, remainder) := Z.div_eucl total_seconds 3600 in
  let (minutes, seconds) := Z.div_eucl remainder 60 in
  hh <- format_02_exn hours ;;
  mm <- format_02_exn minutes ;;
  ss <- format_02_exn seconds ;;
  Returned (hh ++ ":" ++ mm ++ ":" ++ ss).

(** ** The segment merger *)

Import Re.

(** The pattern, its tokens spaced out:
    ^ \[ ( (?:\d{2}:)? \d{2} : \d{2} (?:\.\d+)? ) \] \s* ( [^:]+? ) : \s* ( .* ) $
    [timestamp_pattern] is the inside of its first group. *)
Definition timestamp_pattern : regex :=
  seq [ Opt (seq [Class digit; Class digit; Chr ":"]);
        Class digit; Class digit; Chr ":";
        Class digit; Class digit;
        Opt (seq [Chr "."; Plus true digit]) ].

Definition line_regex : regex :=
  seq [ Bol;
        Chr "[";
        Group 1 timestamp_pattern;
        Chr "]";
        Star true space;
        Group 2 (Plus false not_colon);
        Chr ":";
        Star true space;
        Group 3 (Star true dot);
        Eol ].

(** [line_regex.match(line)] followed by [match.groups()].  A group that
    took no part in a match would read [None] in Python and reads as the
    empty string here; the three groups of this pattern take part in
    every match. *)
Definition line_regex_match (line : string) : option (string * string * string) :=
  match match_ line_regex line with
  | None => None
  | Some caps =>
      let g n := match caps n with Some v => v | None => "" end in
      Some (g 1%nat, g 2%nat, g 3%nat)
  end.

Record loop_state : Type := {
  output_lines : list string;
  current_segment_start_ts_str : option string;
  current_segment_start_seconds : option Z;
  current_speaker : option string;
  current_text_parts : list string;
  warnings : list (nat * string)
}.

Definition initial_state : loop_state :=
  {| output_lines := [];
     current_segment_start_ts_str := None;
     current_segment_start_seconds := None;
     current_speaker := None;
     current_text_parts := [];
     warnings := [] |}.

(** How an f-string renders a value that is a [str] or [None]. *)
Definition fstr (v : option string) : string :=
  match v with
  | Some s => s
  | None => "None"
  end.

(** [f"[{current_segment_start_ts_str}] {current_speaker}: {segment_text}"]
    with [segment_text = ' '.join(filter(None, current_text_parts))]. *)
Definition format_segment (start_ts_str : option string) (speaker : string)
           (text_parts : list string) : string :=
  let segment_text := join " " (filter_none text_parts) in
  "[" ++ fstr start_ts_str ++ "] " ++ speaker ++ ": " ++ segment_text.

Definition segment_line (st : loop_state) (speaker : string) : string :=
  format_segment (current_segment_start_ts_str st) speaker
                 (current_text_parts st).

(** [output_lines], with the open segment appended when there is one. *)
Definition flushed_lines (st : loop_state) : list string :=
  match current_speaker st with
  | Some speaker => output_lines st ++ [segment_line st speaker]
  | None => output_lines st
  end.

(** The branch taken when the line does not match. *)
Definition on_no_match (st : loop_state) (line : string) : loop_state :=
  {| output_lines := flushed_lines st ++ [line];
     current_segment_start_ts_str :=
       match current_speaker st with
       | Some _ => None
       | None => current_segment_start_ts_str st
       end;
     current_segment_start_seconds :=
       match current_speaker st with
       | Some _ => None
       | None => current_segment_start_seconds st
       end;
     current_speaker := None;
     current_text_parts :=
       match current_speaker st with
       | Some _ => []
       | None => current_text_parts st
       end;
     warnings := warnings st |}.

(** The branch taken when the timestamp is [None]: a warning, and on to
    the next line. *)
Definition on_invalid_timestamp (st : loop_state) (i : nat) (line : string)
  : loop_state :=
  {| output_lines := output_lines st;
     current_segment_start_ts_str := current_segment_start_ts_str st;
     current_segment_start_seconds := current_segment_start_seconds st;
     current_speaker := current_speaker st;
     current_text_parts := current_text_parts st;
     warnings := warnings st ++ [(i + 1, line)%nat] |}.

Definition start_new_segment (max_segment_duration : Z) (st : loop_state)
           (speaker : string) (current_seconds : Z) : bool :=
  match current_speaker st with
  | None => true
  | Some cur =>
      if negb (String.eqb speaker cur) then true
      else match current_segment_start_seconds st with
           | Some start => current_seconds - start >? max_segment_duration
           | None => false
           end
  end.

(** The branch [if start_new_segment].  [current_seconds] is the time of
    a caption line, for which the call of [seconds_to_timestamp] returns. *)
Definition on_new_segment (st : loop_state) (speaker : string)
           (current_seconds : Z) (text : string) : loop_state :=
  {| output_lines := flushed_lines st;
     current_segment_start_ts_str :=
       Some (seconds_to_timestamp (Some current_seconds));
     current_segment_start_seconds := Some current_seconds;
     current_speaker := Some speaker;
     current_text_parts := [text];
     warnings := warnings st |}.

(** The branch [else]. *)
Definition on_same_segment (st : loop_state) (text : string) : loop_state :=
  {| output_lines := output_lines st;
     current_segment_start_ts_str := current_segment_start_ts_str st;
     current_segment_start_seconds := current_segment_start_seconds st;
     current_speaker := current_speaker st;
     current_text_parts :=
       if truthy text then current_text_parts st ++ [text]
       else current_text_parts st;
     warnings := warnings st |}.

(** The body of the [for] loop, for line number [i]. *)
Definition loop_body (max_segment_duration : Z) (st : loop_state)
           (i : nat) (line : string) : loop_state :=
  let line := strip line in
  if negb (truthy line) then st
  else
    match line_regex_match line with
    | None => on_no_match st line
    | Some (ts_str, speaker, text) =>
        let speaker := strip speaker in
        let text := strip text in
        match timestamp_to_seconds ts_str with
        | None => on_invalid_timestamp st i line
        | Some current_seconds =>
            if start_new_segment max_segment_duration st speaker current_seconds
            then on_new_segment st speaker current_seconds text
            else on_same_segment st text
        end
    end.

(** [for i, line in enumerate(lines)], from line number [i] on. *)
Fixpoint loop (max_segment_duration : Z) (i : nat) (lines : list string)
         (st : loop_state) : loop_state :=
  match lines with
  | [] => st
  | line :: lines' =>
      loop max_segment_duration (S i) lines'
           (loop_body max_segment_duration st i line)
  end.

(** The list [output_lines] at the [return], for the lines of the input. *)
Definition process_lines (max_segment_duration : Z) (lines : list string)
  : list string :=
  flushed_lines (loop max_segment_duration 0 lines initial_state).

(** The warnings logged on the way. *)
Definition process_warnings (max_segment_duration : Z) (input_text : string)
  : list (nat * string) :=
  warnings (loop max_segment_duration 0 (splitlines (strip input_text))
                 initial_state).

Definition process_transcript (input_text : string) (max_segment_duration : Z)
  : string :=
  let lines := splitlines (strip input_text) in
  join nl (process_lines max_segment_duration lines).

(** The call [process_transcript(input_text)]: [max_segment_duration]
    takes its default. *)
Definition max_segment_duration_default : Z := 30.

Definition process_transcript_default (input_text : string) : string :=
  process_transcript input_text max_segment_duration_default.


(** ** The speakers of [main]

    [speakers = [s.strip() for s in args.speakers.split(",") if s.strip()]],
    and [["Host", "Guest"]] when that list is empty. *)
Definition speakers_of_argument (arg : string) : list string :=
  let speakers :=
    map strip (filter (fun s => truthy (strip s)) (split "," arg)) in
  match speakers with
  | [] => ["Host"; "Guest"]
  | _ => speakers
  end.

(** * Vocabulary of the properties

    Definitions used to state the properties of the model: none of them
    is part of the program. *)

(** Every character of [s] satisfies [p]. *)
Fixpoint all (p : ascii -> bool) (s : string) : bool :=
  match s with
  | "" => true
  | String c s' => p c && all p s'
  end.

(** [c] does not occur in [s]. *)
Definition lacks (c : ascii) (s : string) : bool :=
  all (fun x => negb (Ascii.eqb x c)) s.

(** The number a string of decimal digits denotes, read after [acc]. *)
Fixpoint decimal_from (acc : Z) (s : string) : Z :=
  match s with
  | "" => acc
  | String c s' => decimal_from (10 * acc + (Z.of_N (code c) - 48)) s'
  end.

(** The number a string of decimal digits denotes. *)
Definition decimal (s : string) : Z := decimal_from 0 s.

(** A timestamp text is colon-separated fields followed by what
    [split(".")[0]] cuts off: nothing, or a dot and anything.  A field
    holds neither a colon nor a dot. *)
Definition is_field (f : string) : Prop :=
  lacks ":" f = true /\ lacks "." f = true.

(** What [split(".")[0]] cuts off. *)
Definition is_cut_off (suffix : string) : Prop :=
  suffix = "" \/ exists frac, suffix = String "." frac.

(** [rest] read after the accumulator [a] gives [a * w + m]. *)
Definition reads (rest : string) (w m : Z) : Prop :=
  forall a, decimal_from a rest = a * w + m.

(** Two decimal digits, the tens first: the zero-padded rendering
    [MM] or [SS] of a number below 100. *)
Definition two_digits (v : Z) : string :=
  String (digit_char (v / 10)) (String (digit_char (v mod 10)) "").

(** The value [seconds_to_timestamp] renders: [None] and negative
    numbers count as zero. *)
Definition clamped (total_seconds : option Z) : Z :=
  match total_seconds with
  | None => 0
  | Some n => Z.max 0 n
  end.

(** The words a pattern reads: [matches r pre caps w rest caps'] says
    that [r], started after the reversed text [pre] with the groups
    [caps], can read [w] in front of [rest] and leave the groups
    [caps']. *)
Fixpoint matches (r : regex) (pre : string) (caps : captures)
         (w rest : string) (caps' : captures) : Prop :=
  match r with
  | Eps => w = "" /\ caps' = caps
  | Bol => pre = "" /\ w = "" /\ caps' = caps
  | Eol => (rest = "" \/ rest = nl) /\ w = "" /\ caps' = caps
  | Class p => (exists c, p c = true /\ w = String c "") /\ caps' = caps
  | Seq r1 r2 =>
      exists w1 w2 caps1,
        w = w1 ++ w2 /\
        matches r1 pre caps w1 (w2 ++ rest) caps1 /\
        matches r2 (rev_onto w1 pre) caps1 w2 rest caps'
  | Opt r1 => matches r1 pre caps w rest caps' \/ (w = "" /\ caps' = caps)
  | Star _ p => all p w = true /\ caps' = caps
  | Group n r1 =>
      exists caps1,
        matches r1 pre caps w rest caps1 /\ caps' = set_group n w caps1
  end.

(** The timestamp texts the pattern lets through: two or three fields
    of two decimal digits, and after them nothing or a dot and at least
    one decimal digit. *)
Definition two_decimals (f : string) : Prop :=
  exists a b, isdecimal a = true /\ isdecimal b = true
              /\ f = String a (String b "").

Definition fraction_part (suffix : string) : Prop :=
  suffix = "" \/
  exists frac, suffix = String "." frac /\ frac <> ""
               /\ all isdecimal frac = true.

Definition timestamp_shape (ts : string) : Prop :=
  exists fields suffix,
    ts = join ":" fields ++ suffix /\
    (List.length fields = 2 \/ List.length fields = 3)%nat /\
    Forall two_decimals fields /\ fraction_part suffix.

(** [st] is [st'] with [before] in front of its output: the same open
    segment, or none on both sides. *)
Definition ahead (before : list string) (st st' : loop_state) : Prop :=
  output_lines st = (before ++ output_lines st')%list /\
  current_speaker st = current_speaker st' /\
  (current_speaker st <> None ->
   current_segment_start_ts_str st = current_segment_start_ts_str st' /\
   current_segment_start_seconds st = current_segment_start_seconds st' /\
   current_text_parts st = current_text_parts st').

(** The text a caption line adds to its segment. *)
Definition caption_text (line : string) : string :=
  match line_regex_match (strip line) with
  | Some (_, _, text) => strip text
  | None => ""
  end.

(** [line] is a caption of [speaker] no more than [max] seconds after
    [start]. *)
Definition within_window (max : Z) (speaker : string) (start : Z)
           (line : string) : Prop :=
  exists ts sp text seconds,
    line_regex_match (strip line) = Some (ts, sp, text) /\
    timestamp_to_seconds ts = Some seconds /\
    strip sp = speaker /\ seconds - start <= max.

(** [st] with [parts] added at the end of the open segment. *)
Definition with_more_parts (st : loop_state) (parts : list string)
  : loop_state :=
  {| output_lines := output_lines st;
     current_segment_start_ts_str := current_segment_start_ts_str st;
     current_segment_start_seconds := current_segment_start_seconds st;
     current_speaker := current_speaker st;
     current_text_parts := current_text_parts st ++ parts;
     warnings := warnings st |}.

(** [text] is one of [parts], or it is empty and adds nothing. *)
Definition has_text (parts : list string) (text : string) : Prop :=
  text = "" \/ In text parts.

(** [line] shows in the lines [out]: itself when it does not match the
    pattern, and otherwise in a segment of its speaker that holds its
    text. *)
Definition contributes (out : list string) (line : string) : Prop :=
  match line_regex_match (strip line) with
  | None => In (strip line) out
  | Some (_, speaker, text) =>
      exists start_ts parts,
        In (format_segment start_ts (strip speaker) parts) out /\
        has_text parts (strip text)
  end.

(** [line] is a caption whose text is in the segment that is open. *)
Definition in_open_segment (st : loop_state) (line : string) : Prop :=
  match line_regex_match (strip line) with
  | None => False
  | Some (_, speaker, text) =>
      current_speaker st = Some (strip speaker) /\
      has_text (current_text_parts st) (strip text)
  end.

(** [line] is accounted for: in the lines written so far or in the open
    segment. *)
Definition covered (st : loop_state) (line : string) : Prop :=
  contributes (output_lines st) line \/ in_open_segment st line.

(** A name as [speakers_of_argument] returns it. *)
Definition is_name (s : string) : Prop :=
  s <> "" /\ strip s = s /\ lacks "," s = true.

(** The characters of a timestamp. *)
Definition timestamp_char (c : ascii) : bool :=
  isdecimal c || Ascii.eqb c ":" || Ascii.eqb c ".".


(** What the output is made of: a line that passed through, or a
    segment with the time it started, its speaker and its texts. *)
Inductive item : Type :=
| Pass (text : string)
| Seg (seconds : Z) (speaker : string) (parts : list string).

(** The line an item is written as. *)
Definition render (it : item) : string :=
  match it with
  | Pass text => text
  | Seg seconds speaker parts =>
      format_segment (Some (seconds_to_timestamp (Some seconds))) speaker parts
  end.

(** Some line of [lines] is a caption of [speaker] with the text [text]. *)
Definition caption_of (lines : list string) (speaker text : string) : Prop :=
  exists l ts sp tx,
    In l lines /\ line_regex_match (strip l) = Some (ts, sp, tx) /\
    strip sp = speaker /\ strip tx = text.

(** An item that comes from [lines]: a trimmed line that does not match
    the pattern, or a segment opened by a caption line, at its time, for
    its speaker and with its text, followed by texts, none empty, of
    caption lines of the same speaker. *)
Definition item_sound (lines : list string) (it : item) : Prop :=
  match it with
  | Pass t =>
      t <> "" /\ line_regex_match t = None /\
      exists l, In l lines /\ strip l = t
  | Seg s sp ps =>
      exists l ts sp0 tx0 more,
        In l lines /\ line_regex_match (strip l) = Some (ts, sp0, tx0) /\
        timestamp_to_seconds ts = Some s /\ strip sp0 = sp /\
        ps = strip tx0 :: more /\
        Forall (fun p => p <> "" /\ caption_of lines sp p) more
  end.

(** Two segments that follow each other, the newest first in the list,
    differ in their speaker or start more than [max] seconds apart. *)
Fixpoint separated (max : Z) (ritems : list item) : Prop :=
  match ritems with
  | Seg s2 sp2 _ :: rest =>
      match rest with
      | Seg s1 sp1 _ :: _ => sp2 <> sp1 \/ s2 - s1 > max
      | _ => True
      end /\ separated max rest
  | Pass _ :: rest => separated max rest
  | [] => True
  end.

(** The state of the loop when it has written the items [ritems], the
    newest first; the open segment is the newest of them. *)
Definition shows (ritems : list item) (st : loop_state) : Prop :=
  match current_speaker st with
  | None =>
      output_lines st = List.rev (map render ritems) /\
      match ritems with
      | Seg _ _ _ :: _ => False
      | _ => True
      end
  | Some sp =>
      exists s ps rclosed,
        ritems = Seg s sp ps :: rclosed /\
        output_lines st = List.rev (map render rclosed) /\
        current_segment_start_seconds st = Some s /\
        current_segment_start_ts_str st
        = Some (seconds_to_timestamp (Some s)) /\
        current_text_parts st = ps
  end.


(** The time of [line], when it is a caption line, is below [limit]
    seconds. *)
Definition caption_before (limit : Z) (line : string) : bool :=
  match line_regex_match (strip line) with
  | Some (ts, _, _) =>
      match timestamp_to_seconds ts with
      | Some seconds => seconds <? limit
      | None => true
      end
  | None => true
  end.

(** An item whose line the loop reads back as it is: a line that does
    not match, trimmed and not empty; or a segment that starts before the
    hundredth hour, with a trimmed speaker without colon and trimmed
    texts without newline. *)
Definition item_ok (it : item) : Prop :=
  match it with
  | Pass t => t <> "" /\ strip t = t /\ line_regex_match t = None
  | Seg s sp ps =>
      0 <= s < 360000 /\ strip sp = sp /\ lacks ":" sp = true /\
      Forall (fun p => strip p = p /\ lacks LF p = true) ps
  end.


(** A character that does not end a line for [str.splitlines]. *)
Definition nonbreak (c : ascii) : bool := negb (islinebreak c).

(** * Properties *)

(** ** Strings *)

Module StrFacts.

Lemma app_nil_r (s : string) : s ++ "" = s.
Proof. induction s; simpl; congruence. Qed.

Lemma app_assoc (a b c : string) : (a ++ b) ++ c = a ++ (b ++ c).
Proof. induction a; simpl; congruence. Qed.

Lemma length_app (a b : string) :
  String.length (a ++ b) = (String.length a + String.length b)%nat.
Proof. induction a; simpl; congruence. Qed.

Lemma all_app p (a b : string) : all p (a ++ b) = all p a && all p b.
Proof.
  induction a as [|c a IH]; simpl; [reflexivity|].
  now rewrite IH, andb_assoc.
Qed.

Lemma all_impl (p q : ascii -> bool) (s : string) :
  (forall c, p c = true -> q c = true) -> all p s = true -> all q s = true.
Proof.
  intros Hpq. induction s as [|c s IH]; simpl; [reflexivity|].
  intros H. apply andb_true_iff in H as [Hc Hs].
  now rewrite (Hpq _ Hc), IH.
Qed.

Lemma split_not_nil sep s : split sep s <> [].
Proof.
  destruct s as [|c s]; simpl; [discriminate|].
  destruct (Ascii.eqb c sep); [discriminate|].
  destruct (split sep s); discriminate.
Qed.

(** A text without the separator is one field. *)
Lemma split_plain sep w : lacks sep w = true -> split sep w = [w].
Proof.
  induction w as [|c w IH]; simpl; [reflexivity|].
  intros H. apply andb_true_iff in H as [Hc Hw].
  apply negb_true_iff in Hc. rewrite Hc, (IH Hw). reflexivity.
Qed.

(** The first field ends at the first separator. *)
Lemma split_at_sep sep w r :
  lacks sep w = true -> split sep (w ++ String sep r) = w :: split sep r.
Proof.
  induction w as [|c w IH]; simpl.
  - intros _. now rewrite Ascii.eqb_refl.
  - intros H. apply andb_true_iff in H as [Hc Hw].
    apply negb_true_iff in Hc. rewrite Hc, (IH Hw). reflexivity.
Qed.

(** [split] undoes [join] when no field holds the separator. *)
Lemma split_join sep (fields : list string) :
  fields <> [] ->
  Forall (fun f => lacks sep f = true) fields ->
  split sep (join (String sep "") fields) = fields.
Proof.
  intros Hne Hall. induction Hall as [|f fs Hf Hfs IH]; [congruence|].
  destruct fs as [|g fs].
  - simpl. now apply split_plain.
  - change (join (String sep "") (f :: g :: fs))
      with (f ++ String sep (join (String sep "") (g :: fs))).
    rewrite (split_at_sep _ _ _ Hf), IH; [reflexivity|discriminate].
Qed.

(** [join] undoes [split]: every text is its fields put together. *)
Lemma join_split sep s : join (String sep "") (split sep s) = s.
Proof.
  induction s as [|c s IH]; simpl; [reflexivity|].
  destruct (Ascii.eqb_spec c sep) as [->|Hne].
  - pose proof (split_not_nil sep s) as Hnn.
    destruct (split sep s) as [|h t] eqn:E; [congruence|].
    simpl. simpl in IH. now rewrite IH.
  - pose proof (split_not_nil sep s) as Hnn.
    destruct (split sep s) as [|h t] eqn:E; [congruence|].
    simpl in *. destruct t; simpl in *; now rewrite <- IH.
Qed.

Lemma split_fields_lack sep s :
  Forall (fun f => lacks sep f = true) (split sep s).
Proof.
  induction s as [|c s IH]; simpl.
  - constructor; [reflexivity|constructor].
  - destruct (Ascii.eqb c sep) eqn:E.
    + constructor; [reflexivity|exact IH].
    + destruct (split sep s) as [|h t].
      * constructor; [|constructor]. unfold lacks. simpl. now rewrite E.
      * inversion IH; subst. constructor; [|assumption].
        unfold lacks in *. simpl. now rewrite E.
Qed.

Lemma lacks_join c sep (fields : list string) :
  Ascii.eqb sep c = false ->
  Forall (fun f => lacks c f = true) fields ->
  lacks c (join (String sep "") fields) = true.
Proof.
  intros Hsep Hall. induction Hall as [|f fs Hf Hfs IH]; [reflexivity|].
  destruct fs as [|g fs]; [exact Hf|].
  set (J := join (String sep "") (g :: fs)) in *.
  change (lacks c (f ++ String sep J) = true).
  unfold lacks in *. rewrite all_app, Hf. cbn [all andb].
  now rewrite Hsep, IH.
Qed.

End StrFacts.

Import StrFacts.

(** ** Integers and their decimal notation *)

Module IntFacts.

Local Open Scope char_scope.

Lemma decimal_cases (c : ascii) :
  isdecimal c = true ->
  In c ["0"; "1"; "2"; "3"; "4"; "5"; "6"; "7"; "8"; "9"].
Proof.
  destruct c as [[] [] [] [] [] [] [] []]; intros H;
    try discriminate H; simpl; tauto.
Qed.

Ltac by_digit c H :=
  apply decimal_cases in H; simpl in H;
  repeat (destruct H as [H|H]; [subst c; try reflexivity|]);
  try contradiction.

Lemma decimal_not_space_int c : isdecimal c = true -> isspace_int c = false.
Proof. intros H. by_digit c H. Qed.

Lemma decimal_not_space c : isdecimal c = true -> isspace c = false.
Proof. intros H. by_digit c H. Qed.

Lemma decimal_not_dot c : isdecimal c = true -> Ascii.eqb c "." = false.
Proof. intros H. by_digit c H. Qed.

Lemma decimal_not_colon c : isdecimal c = true -> Ascii.eqb c ":" = false.
Proof. intros H. by_digit c H. Qed.

Lemma digit_char_decimal d : 0 <= d < 10 -> isdecimal (digit_char d) = true.
Proof.
  intros H.
  assert (d = 0 \/ d = 1 \/ d = 2 \/ d = 3 \/ d = 4 \/ d = 5 \/ d = 6
          \/ d = 7 \/ d = 8 \/ d = 9) as C by lia.
  repeat (destruct C as [->|C]; [reflexivity|]). now subst.
Qed.

Lemma digit_value_char d : 0 <= d < 10 -> digit_value (digit_char d) = Some d.
Proof.
  intros H.
  assert (d = 0 \/ d = 1 \/ d = 2 \/ d = 3 \/ d = 4 \/ d = 5 \/ d = 6
          \/ d = 7 \/ d = 8 \/ d = 9) as C by lia.
  repeat (destruct C as [->|C]; [reflexivity|]). now subst.
Qed.

Local Open Scope string_scope.

Lemma digits_value_decimal (s : string) :
  all isdecimal s = true ->
  forall acc b, (s <> "" \/ b = true) ->
  digits_value acc b s = Some (decimal_from acc s).
Proof.
  induction s as [|c s IH]; simpl; intros Hall acc b Hb.
  - destruct Hb as [Hb| ->]; [congruence|reflexivity].
  - apply andb_true_iff in Hall as [Hc Hs].
    unfold digit_value. rewrite Hc. apply IH; auto.
Qed.

Lemma lstrip_by_head p c s : p c = false -> lstrip_by p (String c s) = String c s.
Proof. intros H. simpl. now rewrite H. Qed.

Lemma rstrip_by_none p s :
  all (fun c => negb (p c)) s = true -> rstrip_by p s = s.
Proof.
  induction s as [|c s IH]; simpl; [reflexivity|].
  intros H. apply andb_true_iff in H as [Hc Hs].
  apply negb_true_iff in Hc. rewrite (IH Hs), Hc. now destruct s.
Qed.

Lemma strip_by_digits p s :
  (forall c, isdecimal c = true -> p c = false) ->
  all isdecimal s = true -> strip_by p s = s.
Proof.
  intros Hp Hall. unfold strip_by.
  assert (lstrip_by p s = s) as ->.
  { destruct s as [|c s]; [reflexivity|]. apply lstrip_by_head, Hp.
    simpl in Hall. now apply andb_true_iff in Hall as [Hc _]. }
  apply rstrip_by_none. revert Hall. apply all_impl.
  intros c Hc. now rewrite (Hp c Hc).
Qed.

(** [int] reads a non-empty string of decimal digits as the number it
    denotes. *)
Lemma int_decimal (s : string) :
  all isdecimal s = true -> s <> "" -> int s = Returned (decimal s).
Proof.
  intros Hall Hne. unfold int.
  rewrite (strip_by_digits _ _ decimal_not_space_int Hall).
  assert (digits_value 0 false s = Some (decimal s)) as E
      by (apply digits_value_decimal; auto).
  destruct s as [|c s]; [congruence|].
  simpl in Hall. apply andb_true_iff in Hall as [Hc _].
  apply decimal_cases in Hc. simpl in Hc.
  repeat (destruct Hc as [Hc|Hc]; [subst c; now rewrite E|]).
  contradiction.
Qed.

End IntFacts.

Import IntFacts.

(** ** The timestamp codec: parsing *)

Lemma map_int_length (xs : list string) (ns : list Z) :
  map_int xs = Returned ns -> List.length ns = List.length xs.
Proof.
  revert ns. induction xs as [|x xs IH]; simpl; intros ns H.
  - now inversion H.
  - destruct (int x) as [n|e]; simpl in H; [|discriminate].
    destruct (map_int xs) as [ns'|e]; simpl in H; [|discriminate].
    inversion H; subst. simpl. now rewrite (IH ns').
Qed.

Lemma map_int_raises (xs : list string) (f : string) (e : py_exn) :
  In f xs -> int f = Raised e -> exists e', map_int xs = Raised e'.
Proof.
  induction xs as [|x xs IH]; simpl; intros Hin Hf; [contradiction|].
  destruct Hin as [->|Hin].
  - rewrite Hf. simpl. eauto.
  - destruct (int x); simpl; [|eauto].
    destruct (IH Hin Hf) as [e' ->]. simpl. eauto.
Qed.

Lemma lacks_app_inv c (a b : string) :
  lacks c (a ++ b) = true -> lacks c a = true /\ lacks c b = true.
Proof. unfold lacks. rewrite all_app. apply andb_true_iff. Qed.

Lemma lacks_join_inv c sep (fields : list string) :
  lacks c (join sep fields) = true ->
  Forall (fun f => lacks c f = true) fields.
Proof.
  induction fields as [|f fs IH]; [constructor|].
  destruct fs as [|g fs].
  - simpl. intros H. constructor; [exact H|constructor].
  - set (J := join sep (g :: fs)) in *.
    change (join sep (f :: g :: fs)) with (f ++ sep ++ J). intros H.
    apply lacks_app_inv in H as [Hf H].
    apply lacks_app_inv in H as [_ H].
    constructor; auto.
Qed.

(** Every text has this shape, in exactly the way the code cuts it. *)
Lemma timestamp_fields_exist (ts_str : string) :
  exists fields suffix,
    ts_str = join ":" fields ++ suffix /\
    fields <> [] /\ Forall is_field fields /\ is_cut_off suffix.
Proof.
  pose proof (join_split "." ts_str) as Hj.
  pose proof (split_fields_lack "." ts_str) as Hl.
  pose proof (split_not_nil "." ts_str) as Hn.
  destruct (split "." ts_str) as [|body rest]; [congruence|].
  pose proof (Forall_inv Hl) as Hbody. simpl in Hbody.
  exists (split ":" body).
  exists (match rest with [] => "" | _ => String "." (join "." rest) end).
  repeat split.
  - rewrite join_split. rewrite <- Hj at 1.
    destruct rest; simpl; [now rewrite app_nil_r|reflexivity].
  - apply split_not_nil.
  - pose proof (split_fields_lack ":" body) as Hc.
    rewrite <- (join_split ":" body) in Hbody.
    apply lacks_join_inv in Hbody.
    rewrite Forall_forall in *. intros f Hf. split; auto.
  - destruct rest; [now left|right; eauto].
Qed.

Section Parse.

Variable fields : list string.
Variable suffix : string.
Hypothesis fields_not_nil : fields <> [].
Hypothesis fields_plain : Forall is_field fields.
Hypothesis suffix_cut_off : is_cut_off suffix.

Let ts_str : string := join ":" fields ++ suffix.

Lemma timestamp_try_fields :
  timestamp_to_seconds_try ts_str =
    (parts <- map_int fields ;;
     match parts with
     | [h; m; s] => Returned (Some (h * 3600 + m * 60 + s))
     | [m; s] => Returned (Some (m * 60 + s))
     | _ => Returned None
     end).
Proof.
  unfold timestamp_to_seconds_try, ts_str.
  assert (lacks "." (join ":" fields) = true) as Hbody.
  { apply lacks_join; [reflexivity|].
    eapply Forall_impl; [|exact fields_plain]. now intros f [_ H]. }
  assert (item0 (split "." (join ":" fields ++ suffix))
          = Returned (join ":" fields)) as ->.
  { destruct suffix_cut_off as [->|[frac ->]].
    - now rewrite app_nil_r, split_plain.
    - now rewrite split_at_sep. }
  simpl bind at 1. rewrite split_join; auto.
  eapply Forall_impl; [|exact fields_plain]. now intros f [H _].
Qed.

(** C8. [timestamp_to_seconds] on a text made of colon-separated
    fields, possibly followed by a dot and a fractional part: the result
    is [None] when the number of fields is neither 2 nor 3 and when
    [int] rejects a field, where the body of the [try] raises and the
    function still returns [None]; two fields M:S give M*60+S, three
    fields H:M:S give H*3600+M*60+S; the part cut off at the dot does not
    change the result. *)
Theorem timestamp_to_seconds_spec :
  (List.length fields <> 2%nat -> List.length fields <> 3%nat ->
   timestamp_to_seconds ts_str = None) /\
  (forall f e, In f fields -> int f = Raised e ->
               (exists e', timestamp_to_seconds_try ts_str = Raised e') /\
               timestamp_to_seconds ts_str = None) /\
  (forall a b m s, fields = [a; b] ->
                   int a = Returned m -> int b = Returned s ->
                   timestamp_to_seconds ts_str = Some (m * 60 + s)) /\
  (forall a b c h m s, fields = [a; b; c] ->
                       int a = Returned h -> int b = Returned m ->
                       int c = Returned s ->
                       timestamp_to_seconds ts_str
                       = Some (h * 3600 + m * 60 + s)) /\
  timestamp_to_seconds ts_str = timestamp_to_seconds (join ":" fields).
Proof.
  unfold timestamp_to_seconds. rewrite timestamp_try_fields.
  split; [|split; [|split; [|split]]].
  - intros H2 H3. destruct (map_int fields) as [ns|e] eqn:E; [|reflexivity].
    apply map_int_length in E. simpl.
    destruct ns as [|x [|y [|z [|w ns]]]]; simpl in E; try reflexivity;
      congruence.
  - intros f e Hin Hf. destruct (map_int_raises _ _ _ Hin Hf) as [e' ->].
    split; [exists e'|]; reflexivity.
  - intros a b m s -> Ha Hb. simpl. now rewrite Ha, Hb.
  - intros a b c h m s -> Ha Hb Hc. simpl. now rewrite Ha, Hb, Hc.
  - unfold timestamp_to_seconds_try.
    assert (lacks "." (join ":" fields) = true) as Hbody.
    { apply lacks_join; [reflexivity|].
      eapply Forall_impl; [|exact fields_plain]. now intros f [_ H]. }
    rewrite split_plain by exact Hbody. simpl bind at 2.
    rewrite split_join; auto.
    eapply Forall_impl; [|exact fields_plain]. now intros f [H _].
Qed.

End Parse.

Lemma timestamp_to_seconds_spec_witness :
  timestamp_to_seconds "01:02:03.5" = Some 3723 /\
  timestamp_to_seconds "01:02:03.5" = timestamp_to_seconds "01:02:03".
Proof.
  assert (Forall is_field ["01"; "02"; "03"]) as Hf
      by (repeat constructor).
  assert (is_cut_off ".5") as Hs by (right; exists "5"; reflexivity).
  destruct (timestamp_to_seconds_spec ["01"; "02"; "03"] ".5"
              ltac:(discriminate) Hf Hs) as (_ & _ & _ & H3 & Hcut).
  split; [|exact Hcut].
  exact (H3 "01" "02" "03" 1 2 3 eq_refl eq_refl eq_refl eq_refl).
Defined.

(** ** The timestamp codec: formatting *)

Module FormatFacts.

Lemma code_digit_char d : 0 <= d < 10 -> Z.of_N (code (digit_char d)) - 48 = d.
Proof.
  intros H. pose proof (digit_value_char d H) as E.
  unfold digit_value in E. rewrite (digit_char_decimal d H) in E.
  congruence.
Qed.

Lemma reads_digit d rest w m :
  0 <= d < 10 -> reads rest w m ->
  reads (String (digit_char d) rest) (10 * w) (d * w + m).
Proof.
  intros Hd Hr a. cbn [decimal_from].
  rewrite (code_digit_char d Hd), Hr. ring.
Qed.

Lemma reads_digits_onto (fuel : nat) :
  forall n rest w m,
    0 <= n < 10 ^ Z.of_nat (S fuel) -> reads rest w m ->
    exists w', reads (digits_onto fuel n rest) w' (n * w + m).
Proof.
  induction fuel as [|fuel IH]; intros n rest w m Hn Hr.
  - change (10 ^ Z.of_nat 1) with 10 in Hn. simpl.
    exists (10 * w). rewrite <- (Z.mod_small n 10) at 2 by lia.
    apply reads_digit; [apply Z.mod_pos_bound; lia|exact Hr].
  - cbn [digits_onto]. destruct (Z.ltb_spec n 10) as [Hlt|Hge].
    + exists (10 * w). rewrite <- (Z.mod_small n 10) at 2 by lia.
      apply reads_digit; [apply Z.mod_pos_bound; lia|exact Hr].
    + assert (0 <= n mod 10 < 10) as Hd by (apply Z.mod_pos_bound; lia).
      assert (0 <= n / 10 < 10 ^ Z.of_nat (S fuel)) as Hq.
      { split; [apply Z.div_pos; lia|].
        apply Z.div_lt_upper_bound; [lia|].
        replace (Z.of_nat (S (S fuel))) with (Z.succ (Z.of_nat (S fuel)))
          in Hn by lia.
        rewrite Z.pow_succ_r in Hn by lia. lia. }
      destruct (IH (n / 10) _ _ _ Hq (reads_digit _ _ _ _ Hd Hr)) as [w' Hw'].
      exists w'. replace (n * w + m)
        with (n / 10 * (10 * w) + (n mod 10 * w + m)); [exact Hw'|].
      rewrite (Z.div_mod n 10) at 3 by lia. ring.
Qed.

Lemma all_decimal_digits_onto (fuel : nat) :
  forall n rest,
    all isdecimal rest = true ->
    all isdecimal (digits_onto fuel n rest) = true.
Proof.
  induction fuel as [|fuel IH]; intros n rest Hr;
    assert (isdecimal (digit_char (n mod 10)) = true) as Hd
      by (apply digit_char_decimal, Z.mod_pos_bound; lia).
  - simpl. now rewrite Hd, Hr.
  - cbn [digits_onto]. destruct (n <? 10).
    + simpl. now rewrite Hd, Hr.
    + apply IH. simpl. now rewrite Hd, Hr.
Qed.

Lemma log2_fuel n : 0 <= n -> n < 10 ^ Z.of_nat (S (Z.to_nat (Z.log2 n))).
Proof.
  intros Hn. pose proof (Z.log2_nonneg n) as Hl.
  replace (Z.of_nat (S (Z.to_nat (Z.log2 n)))) with (Z.succ (Z.log2 n)) by lia.
  destruct (Z.eq_dec n 0) as [->|Hne]; [reflexivity|].
  destruct (Z.log2_spec n ltac:(lia)) as [_ Hup].
  eapply Z.lt_le_trans; [exact Hup|].
  apply Z.pow_le_mono_l. lia.
Qed.

Lemma decimal_str_nonneg n : 0 <= n -> decimal (str_nonneg n) = n.
Proof.
  intros Hn. unfold str_nonneg, decimal.
  destruct (reads_digits_onto _ n "" 1 0 (conj Hn (log2_fuel n Hn)))
    as [w' Hw'].
  - intros a. simpl. ring.
  - rewrite Hw'. ring.
Qed.

Lemma decimal_zeros k s : decimal (zeros k ++ s) = decimal s.
Proof. induction k as [|k IH]; [reflexivity|exact IH]. Qed.

Lemma all_decimal_zeros k : all isdecimal (zeros k) = true.
Proof. induction k as [|k IH]; [reflexivity|exact IH]. Qed.

Lemma length_zeros k : String.length (zeros k) = k.
Proof. induction k; simpl; congruence. Qed.

Section NonNegative.

Variable n : Z.
Hypothesis n_nonneg : 0 <= n.

Lemma format_02_nonneg :
  format_02 n = zeros (2 - String.length (str_nonneg n)) ++ str_nonneg n.
Proof.
  unfold format_02. destruct (Z.ltb_spec n 0); [lia|reflexivity].
Qed.

Lemma format_02_decimal : all isdecimal (format_02 n) = true.
Proof.
  rewrite format_02_nonneg, all_app, all_decimal_zeros.
  now apply all_decimal_digits_onto.
Qed.

Lemma format_02_value : decimal (format_02 n) = n.
Proof.
  rewrite format_02_nonneg, decimal_zeros. now apply decimal_str_nonneg.
Qed.

Lemma format_02_length : (2 <= String.length (format_02 n))%nat.
Proof. rewrite format_02_nonneg, length_app, length_zeros. lia. Qed.

Lemma format_02_not_empty : format_02 n <> "".
Proof.
  pose proof format_02_length as H. intros E. rewrite E in H.
  simpl in H. lia.
Qed.

Lemma int_format_02 : int (format_02 n) = Returned n.
Proof.
  rewrite int_decimal, format_02_value;
    auto using format_02_decimal, format_02_not_empty.
Qed.

End NonNegative.

End FormatFacts.

Import FormatFacts.

Lemma format_02_below_100 :
  forallb (fun k => String.eqb (format_02 (Z.of_nat k)) (two_digits (Z.of_nat k)))
          (List.seq 0 100) = true.
Proof. vm_compute. reflexivity. Qed.

Lemma format_02_two_digits (v : Z) : 0 <= v < 100 -> format_02 v = two_digits v.
Proof.
  intros Hv. pose proof format_02_below_100 as H.
  rewrite forallb_forall in H. specialize (H (Z.to_nat v)).
  rewrite Z2Nat.id in H by lia. apply String.eqb_eq, H, in_seq. lia.
Qed.

Lemma div_eucl_eq (a b : Z) : Z.div_eucl a b = (a / b, a mod b).
Proof. unfold Z.div, Z.modulo. now destruct (Z.div_eucl a b). Qed.

Lemma seconds_to_timestamp_eq (total_seconds : option Z) :
  let n := clamped total_seconds in
  seconds_to_timestamp total_seconds =
    format_02 (n / 3600) ++ ":" ++ format_02 (n mod 3600 / 60) ++ ":"
              ++ format_02 (n mod 3600 mod 60).
Proof.
  intros n. unfold seconds_to_timestamp.
  assert (match total_seconds with
          | Some k => if k <? 0 then 0 else k
          | None => 0
          end = n) as ->.
  { unfold n, clamped. destruct total_seconds as [k|]; [|reflexivity].
    destruct (Z.ltb_spec k 0); lia. }
  now rewrite !div_eucl_eq.
Qed.

Lemma clamped_nonneg x : 0 <= clamped x.
Proof. destruct x; simpl; lia. Qed.

Lemma decimal_is_field (s : string) : all isdecimal s = true -> is_field s.
Proof.
  intros H. split; revert H; apply all_impl; intros c Hc.
  - now rewrite decimal_not_colon.
  - now rewrite decimal_not_dot.
Qed.

(** Parsing what [seconds_to_timestamp] wrote gives the number back. *)
Lemma timestamp_to_seconds_of_formatted (total_seconds : option Z) :
  timestamp_to_seconds (seconds_to_timestamp total_seconds)
  = Some (clamped total_seconds).
Proof.
  rewrite seconds_to_timestamp_eq.
  pose proof (clamped_nonneg total_seconds) as Hn.
  set (n := clamped total_seconds) in *.
  assert (0 <= n / 3600) as Hh by (apply Z.div_pos; lia).
  assert (0 <= n mod 3600 / 60) as Hm
      by (apply Z.div_pos; [apply Z.mod_pos_bound|]; lia).
  assert (0 <= n mod 3600 mod 60) as Hs by (apply Z.mod_pos_bound; lia).
  set (hh := format_02 (n / 3600)). set (mm := format_02 (n mod 3600 / 60)).
  set (ss := format_02 (n mod 3600 mod 60)).
  change (hh ++ ":" ++ mm ++ ":" ++ ss) with (join ":" [hh; mm; ss]).
  rewrite <- (app_nil_r (join ":" [hh; mm; ss])).
  unfold timestamp_to_seconds. rewrite timestamp_try_fields.
  - unfold hh, mm, ss. cbn [map_int].
    rewrite !int_format_02 by assumption. cbn [bind]. f_equal.
    pose proof (Z.div_mod n 3600 ltac:(lia)).
    pose proof (Z.div_mod (n mod 3600) 60 ltac:(lia)). lia.
  - discriminate.
  - repeat constructor; apply decimal_is_field, format_02_decimal; assumption.
  - now left.
Qed.

(** ** The limit on the digits of a conversion *)

Lemma limit_above_100 : 100 < 10 ^ max_str_digits.
Proof. apply Z.ltb_lt. vm_compute. reflexivity. Qed.

Lemma format_02_exn_returns n :
  Z.abs n < 10 ^ max_str_digits -> format_02_exn n = Returned (format_02 n).
Proof.
  intros H. unfold format_02_exn.
  destruct (Z.leb_spec (10 ^ max_str_digits) (Z.abs n)); [lia|reflexivity].
Qed.

Lemma format_02_exn_raises n :
  10 ^ max_str_digits <= Z.abs n -> format_02_exn n = Raised ValueError.
Proof.
  intros H. unfold format_02_exn.
  destruct (Z.leb_spec (10 ^ max_str_digits) (Z.abs n)); [reflexivity|lia].
Qed.

Lemma seconds_to_timestamp_exn_eq (total_seconds : option Z) :
  let n := clamped total_seconds in
  seconds_to_timestamp_exn total_seconds =
    (hh <- format_02_exn (n / 3600) ;;
     mm <- format_02_exn (n mod 3600 / 60) ;;
     ss <- format_02_exn (n mod 3600 mod 60) ;;
     Returned (hh ++ ":" ++ mm ++ ":" ++ ss)).
Proof.
  intros n. unfold seconds_to_timestamp_exn.
  assert (match total_seconds with
          | Some k => if k <? 0 then 0 else k
          | None => 0
          end = n) as ->.
  { unfold n, clamped. destruct total_seconds as [k|]; [|reflexivity].
    destruct (Z.ltb_spec k 0); lia. }
  now rewrite !div_eucl_eq.
Qed.

(** Below the limit the call returns the text. *)
Lemma seconds_to_timestamp_exn_returns (total_seconds : option Z) :
  clamped total_seconds / 3600 < 10 ^ max_str_digits ->
  seconds_to_timestamp_exn total_seconds
  = Returned (seconds_to_timestamp total_seconds).
Proof.
  intros Hlim. rewrite seconds_to_timestamp_exn_eq, seconds_to_timestamp_eq.
  pose proof (clamped_nonneg total_seconds) as Hn.
  set (n := clamped total_seconds) in *. cbv zeta.
  pose proof limit_above_100 as Hbig.
  pose proof (Z.mod_pos_bound n 3600 ltac:(lia)) as Hr.
  pose proof (Z.mod_pos_bound (n mod 3600) 60 ltac:(lia)) as Hs.
  assert (0 <= n / 3600) as Hh by (apply Z.div_pos; lia).
  assert (0 <= n mod 3600 / 60 < 60) as Hm
      by (split; [apply Z.div_pos; lia|apply Z.div_lt_upper_bound; lia]).
  rewrite !format_02_exn_returns by lia. reflexivity.
Qed.

(** From the limit on the call raises [ValueError]. *)
Lemma seconds_to_timestamp_exn_raises (total_seconds : option Z) :
  10 ^ max_str_digits <= clamped total_seconds / 3600 ->
  seconds_to_timestamp_exn total_seconds = Raised ValueError.
Proof.
  intros Hlim. rewrite seconds_to_timestamp_exn_eq. cbv zeta.
  rewrite format_02_exn_raises by lia. reflexivity.
Qed.

Lemma seconds_to_timestamp_exn_text (total_seconds : option Z) s :
  seconds_to_timestamp_exn total_seconds = Returned s ->
  s = seconds_to_timestamp total_seconds /\
  clamped total_seconds / 3600 < 10 ^ max_str_digits.
Proof.
  intros H.
  destruct (Z.lt_ge_cases (clamped total_seconds / 3600) (10 ^ max_str_digits))
    as [Hlt|Hge].
  - rewrite (seconds_to_timestamp_exn_returns _ Hlt) in H.
    inversion H. auto.
  - rewrite (seconds_to_timestamp_exn_raises _ Hge) in H. discriminate.
Qed.

(** ** The digits of a number *)

Lemma digits_onto_length_ge (fuel : nat) :
  forall n acc,
    (S (String.length acc) <= String.length (digits_onto fuel n acc))%nat.
Proof.
  induction fuel as [|fuel IH]; intros n acc; cbn [digits_onto].
  - simpl. lia.
  - destruct (n <? 10); [simpl; lia|].
    specialize (IH (n / 10) (String (digit_char (n mod 10)) acc)).
    simpl in IH. lia.
Qed.

Lemma digits_onto_length_le (fuel : nat) :
  forall n (k : nat) acc,
    0 <= n < 10 ^ Z.of_nat (S k) ->
    (String.length (digits_onto fuel n acc) <= S k + String.length acc)%nat.
Proof.
  induction fuel as [|fuel IH]; intros n k acc Hn; cbn [digits_onto].
  - simpl. lia.
  - destruct (Z.ltb_spec n 10) as [Hlt|Hge]; [simpl; lia|].
    destruct k as [|k]; [change (10 ^ Z.of_nat 1) with 10 in Hn; lia|].
    assert (0 <= n / 10 < 10 ^ Z.of_nat (S k)) as Hq.
    { split; [apply Z.div_pos; lia|].
      apply Z.div_lt_upper_bound; [lia|].
      replace (Z.of_nat (S (S k))) with (Z.succ (Z.of_nat (S k))) in Hn by lia.
      rewrite Z.pow_succ_r in Hn by lia. lia. }
    specialize (IH (n / 10) k (String (digit_char (n mod 10)) acc) Hq).
    simpl in IH. simpl. lia.
Qed.

Lemma digit_char_not_zero d : 1 <= d < 10 -> digit_char d <> "0"%char.
Proof.
  intros H.
  assert (d = 1 \/ d = 2 \/ d = 3 \/ d = 4 \/ d = 5 \/ d = 6
          \/ d = 7 \/ d = 8 \/ d = 9) as C by lia.
  repeat (destruct C as [->|C]; [discriminate|]). subst. discriminate.
Qed.

(** The first digit written for a positive number is not a zero. *)
Lemma digits_onto_head (fuel : nat) :
  forall n acc,
    1 <= n < 10 ^ Z.of_nat (S fuel) ->
    exists c t, digits_onto fuel n acc = String c t /\ c <> "0"%char.
Proof.
  induction fuel as [|fuel IH]; intros n acc Hn; cbn [digits_onto].
  - change (10 ^ Z.of_nat 1) with 10 in Hn.
    eexists _, _. split; [reflexivity|].
    rewrite Z.mod_small by lia. apply digit_char_not_zero. lia.
  - destruct (Z.ltb_spec n 10) as [Hlt|Hge].
    + eexists _, _. split; [reflexivity|].
      rewrite Z.mod_small by lia. apply digit_char_not_zero. lia.
    + apply IH. split.
      * apply Z.div_le_lower_bound; lia.
      * apply Z.div_lt_upper_bound; [lia|].
        replace (Z.of_nat (S (S fuel))) with (Z.succ (Z.of_nat (S fuel)))
          in Hn by lia.
        rewrite Z.pow_succ_r in Hn by lia. lia.
Qed.

Lemma str_nonneg_head n :
  1 <= n -> exists c t, str_nonneg n = String c t /\ c <> "0"%char.
Proof.
  intros Hn. apply digits_onto_head. split; [exact Hn|].
  apply log2_fuel. lia.
Qed.

Lemma str_nonneg_length_le n :
  0 <= n < 10 ^ max_str_digits ->
  Z.of_nat (String.length (str_nonneg n)) <= max_str_digits.
Proof.
  intros Hn. unfold str_nonneg.
  set (k := Z.to_nat (max_str_digits - 1)).
  assert (Z.of_nat (S k) = max_str_digits) as E
      by (unfold k, max_str_digits; lia).
  pose proof (digits_onto_length_le (Z.to_nat (Z.log2 n)) n k "") as H.
  rewrite E in H. specialize (H Hn). cbn [String.length] in H. lia.
Qed.

Lemma str_nonneg_length_ge n :
  10 <= n -> (2 <= String.length (str_nonneg n))%nat.
Proof.
  intros Hn. unfold str_nonneg.
  assert (3 <= Z.log2 n) as Hl
      by (change 3 with (Z.log2 10); apply Z.log2_le_mono; lia).
  destruct (Z.to_nat (Z.log2 n)) as [|fuel] eqn:E; [lia|].
  cbn [digits_onto]. destruct (Z.ltb_spec n 10) as [Hlt|_]; [lia|].
  pose proof (digits_onto_length_ge fuel (n / 10)
                (String (digit_char (n mod 10)) "")) as H.
  simpl in H. lia.
Qed.

(** The hours as [format_02] writes them: two digits below 100, and
    from 100 on the digits of the number, the first of which is not a
    zero; never more than [max_str_digits] digits below the limit. *)
Lemma format_02_hours h :
  0 <= h < 10 ^ max_str_digits ->
  Z.of_nat (String.length (format_02 h)) <= max_str_digits /\
  ((h < 100 /\ format_02 h = two_digits h) \/
   (100 <= h /\ exists c t, format_02 h = String c t /\ c <> "0"%char)).
Proof.
  intros Hh. destruct (Z.lt_ge_cases h 100) as [Hlt|Hge].
  - rewrite format_02_two_digits by lia.
    split; [cbn [two_digits String.length]; unfold max_str_digits; lia|].
    left. auto.
  - rewrite format_02_nonneg by lia.
    pose proof (str_nonneg_length_ge h ltac:(lia)) as Hlen.
    replace (2 - String.length (str_nonneg h))%nat with 0%nat by lia.
    cbn [zeros append]. split; [now apply str_nonneg_length_le|].
    right. split; [exact Hge|]. apply str_nonneg_head. lia.
Qed.

(** C9, as the claim states it, fails: [seconds_to_timestamp] is not
    total.  For 3600 * 10^4300 seconds the hours have 4301 digits, and
    formatting them raises [ValueError]. *)
Lemma seconds_to_timestamp_raises_at_limit :
  seconds_to_timestamp_exn (Some (3600 * 10 ^ 4300)) = Raised ValueError.
Proof. vm_compute. reflexivity. Qed.

(** C9, amended.  As long as the hours have no more than 4300 digits,
    that is for every number below 3600 * 10^4300, [None] and negative
    numbers counting as zero, [seconds_to_timestamp] returns the hours, a
    colon, the minutes as two digits, a colon and the seconds as two
    digits; the hours are the decimal digits of the number of hours, two
    digits below 100 hours and without a leading zero from 100 hours on.
    [None] and every negative number give "00:00:00".  From 3600 * 10^4300
    on the call raises [ValueError]. *)
Theorem seconds_to_timestamp_below_limit :
  (forall total_seconds : option Z,
      let n := clamped total_seconds in
      n / 3600 < 10 ^ max_str_digits ->
      exists hh,
        seconds_to_timestamp_exn total_seconds
        = Returned (hh ++ ":" ++ two_digits (n mod 3600 / 60) ++ ":"
                       ++ two_digits (n mod 60))
        /\ all isdecimal hh = true
        /\ decimal hh = n / 3600
        /\ (2 <= String.length hh)%nat
        /\ Z.of_nat (String.length hh) <= max_str_digits
        /\ ((n / 3600 < 100 /\ hh = two_digits (n / 3600)) \/
            (100 <= n / 3600 /\
             exists c t, hh = String c t /\ c <> "0"%char))) /\
  (forall total_seconds : option Z,
      10 ^ max_str_digits <= clamped total_seconds / 3600 ->
      seconds_to_timestamp_exn total_seconds = Raised ValueError) /\
  seconds_to_timestamp_exn None = Returned "00:00:00" /\
  (forall p : positive,
      seconds_to_timestamp_exn (Some (Z.neg p)) = Returned "00:00:00").
Proof.
  split; [|split; [exact seconds_to_timestamp_exn_raises|split]].
  - intros x n Hlim. pose proof (clamped_nonneg x) as Hn. fold n in Hn.
    assert (0 <= n / 3600) as Hh by (apply Z.div_pos; lia).
    exists (format_02 (n / 3600)).
    rewrite (seconds_to_timestamp_exn_returns x Hlim).
    rewrite seconds_to_timestamp_eq. fold n.
    assert (n mod 3600 mod 60 = n mod 60) as ->.
    { pose proof (Z.div_mod n 3600 ltac:(lia)).
      pose proof (Z.mod_pos_bound n 3600 ltac:(lia)).
      pose proof (Z.div_mod (n mod 3600) 60 ltac:(lia)).
      pose proof (Z.mod_pos_bound (n mod 3600) 60 ltac:(lia)).
      apply (Z.mod_unique n 60 (60 * (n / 3600) + n mod 3600 / 60));
        lia. }
    rewrite (format_02_two_digits (n mod 3600 / 60)).
    2:{ pose proof (Z.mod_pos_bound n 3600 ltac:(lia)).
        split; [apply Z.div_pos; lia|].
        apply Z.div_lt_upper_bound; lia. }
    rewrite (format_02_two_digits (n mod 60)).
    2:{ pose proof (Z.mod_pos_bound n 60 ltac:(lia)). lia. }
    destruct (format_02_hours (n / 3600) (conj Hh Hlim)) as [Hlen Hhead].
    split; [reflexivity|].
    split; [now apply format_02_decimal|].
    split; [now apply format_02_value|].
    split; [now apply format_02_length|].
    split; [exact Hlen|exact Hhead].
  - reflexivity.
  - intros p. reflexivity.
Qed.

Lemma seconds_to_timestamp_below_limit_witness :
  exists hh,
    seconds_to_timestamp_exn (Some 3725) = Returned (hh ++ ":02:05") /\
    decimal hh = 1.
Proof.
  destruct seconds_to_timestamp_below_limit as [H _].
  destruct (H (Some 3725)) as (hh & E & _ & Hv & _).
  - vm_compute. reflexivity.
  - exists hh. split; [exact E|exact Hv].
Defined.


(** ** The matcher *)

Module ReFacts.

Lemma rev_onto_app (a b acc : string) :
  rev_onto (a ++ b) acc = rev_onto b (rev_onto a acc).
Proof. revert acc. induction a as [|c a IH]; intros acc; simpl; auto. Qed.

Lemma rev_onto_acc (a acc : string) : rev_onto a acc = rev a ++ acc.
Proof.
  unfold rev. revert acc. induction a as [|c a IH]; intros acc; simpl; auto.
  rewrite IH, (IH (String c "")), app_assoc. reflexivity.
Qed.

Lemma length_rev_onto (a acc : string) :
  String.length (rev_onto a acc) = (String.length a + String.length acc)%nat.
Proof.
  revert acc. induction a as [|c a IH]; intros acc; simpl; auto.
  rewrite IH. simpl. lia.
Qed.

Lemma rev_involutive (a : string) : rev (rev a) = a.
Proof.
  unfold rev. assert (forall acc, rev_onto (rev_onto a acc) "" = rev_onto acc a) as H.
  { induction a as [|c a IH]; intros acc; simpl.
    - change acc with ("" ++ acc) at 1. rewrite rev_onto_acc, rev_onto_acc.
      now rewrite app_nil_r, app_nil_r.
    - rewrite IH. reflexivity. }
  apply (H "").
Qed.

Lemma substring_app (a b : string) :
  String.substring 0 (String.length a) (a ++ b) = a.
Proof.
  induction a as [|c a IH]; simpl; [now destruct b|]. now rewrite IH.
Qed.

(** What [taken] computes between the start of a word and its end. *)
Lemma taken_rev_onto (w pre : string) : taken pre (rev_onto w pre) = w.
Proof.
  unfold taken. rewrite length_rev_onto, Nat.add_sub, rev_onto_acc.
  replace (String.length w) with (String.length (rev w)).
  - rewrite substring_app. apply rev_involutive.
  - unfold rev. rewrite length_rev_onto. simpl. lia.
Qed.

Section Sound.

Context {R : Type}.

Lemma star_greedy_sound p (s : string) :
  forall pre (k : string -> string -> option R) res,
    star_greedy p pre s k = Some res ->
    exists w rest,
      s = w ++ rest /\ all p w = true /\ k (rev_onto w pre) rest = Some res.
Proof.
  induction s as [|c s IH]; intros pre k res H; simpl in H.
  - exists "", "". auto.
  - destruct (p c) eqn:Hc; [|exists "", (String c s); auto].
    destruct (star_greedy p (String c pre) s k) as [r|] eqn:E.
    + inversion H; subst r. destruct (IH _ _ _ E) as (w & rest & -> & Hw & Hk).
      exists (String c w), rest. simpl. rewrite Hc, Hw. auto.
    + exists "", (String c s). auto.
Qed.

Lemma star_lazy_sound p (s : string) :
  forall pre (k : string -> string -> option R) res,
    star_lazy p pre s k = Some res ->
    exists w rest,
      s = w ++ rest /\ all p w = true /\ k (rev_onto w pre) rest = Some res.
Proof.
  induction s as [|c s IH]; intros pre k res H; simpl in H.
  - destruct (k pre "") eqn:E; [|discriminate].
    exists "", "". inversion H; subst. auto.
  - destruct (k pre (String c s)) eqn:E.
    + exists "", (String c s). inversion H; subst. auto.
    + destruct (p c) eqn:Hc; [|discriminate].
      destruct (IH _ _ _ H) as (w & rest & -> & Hw & Hk).
      exists (String c w), rest. simpl. rewrite Hc, Hw. auto.
Qed.

(** Whatever the backtracking matcher finds is a reading of the
    pattern. *)
Lemma run_sound (r : regex) :
  forall pre s caps (k : string -> string -> captures -> option R) res,
    run r pre s caps k = Some res ->
    exists w rest caps',
      s = w ++ rest /\ matches r pre caps w rest caps' /\
      k (rev_onto w pre) rest caps' = Some res.
Proof.
  induction r as [| | |p|r1 IH1 r2 IH2|r1 IH1|g p|n r1 IH1];
    intros pre s caps k res H; cbn [run] in H.
  - exists "", s, caps. simpl. auto.
  - destruct pre; [|discriminate]. exists "", s, caps. simpl. auto.
  - destruct s as [|c [|c' s]].
    + exists "", "", caps. simpl. auto.
    + destruct (Ascii.eqb_spec c LF) as [->|]; [|discriminate].
      exists "", nl, caps. simpl. auto.
    + discriminate.
  - destruct s as [|c s]; [discriminate|].
    destruct (p c) eqn:Hc; [|discriminate].
    exists (String c ""), s, caps. simpl. eauto 6.
  - destruct (IH1 _ _ _ _ _ H) as (w1 & rest1 & caps1 & -> & M1 & H1).
    destruct (IH2 _ _ _ _ _ H1) as (w2 & rest & caps2 & -> & M2 & H2).
    exists (w1 ++ w2), rest, caps2.
    rewrite app_assoc, rev_onto_app. simpl. eauto 10.
  - destruct (run r1 pre s caps k) as [x|] eqn:E.
    + inversion H; subst x.
      destruct (IH1 _ _ _ _ _ E) as (w & rest & caps' & -> & M & Hk).
      exists w, rest, caps'. simpl. auto.
    + exists "", s, caps. simpl. auto.
  - destruct g.
    + destruct (star_greedy_sound _ _ _ _ _ H) as (w & rest & -> & Hw & Hk).
      exists w, rest, caps. simpl. auto.
    + destruct (star_lazy_sound _ _ _ _ _ H) as (w & rest & -> & Hw & Hk).
      exists w, rest, caps. simpl. auto.
  - destruct (IH1 _ _ _ _ _ H) as (w & rest & caps' & -> & M & Hk).
    rewrite taken_rev_onto in Hk.
    exists w, rest, (set_group n w caps'). simpl. eauto.
Qed.

End Sound.

End ReFacts.

Import ReFacts.

(** ** The line pattern *)

Lemma timestamp_pattern_shape pre caps w rest caps' :
  matches timestamp_pattern pre caps w rest caps' -> timestamp_shape w.
Proof.
  intros M. cbn [timestamp_pattern seq matches Chr Plus] in M.
  destruct M as (w1 & w2 & caps1 & -> & Hopt & M).
  destruct M as (a1 & w3 & ? & -> & [(a & Ha & ->) _] & M).
  destruct M as (b1 & w4 & ? & -> & [(b & Hb & ->) _] & M).
  destruct M as (c1 & w5 & ? & -> & [(c & Hc & ->) _] & M).
  destruct M as (d1 & w6 & ? & -> & [(d & Hd & ->) _] & M).
  destruct M as (e1 & w7 & ? & -> & [(e & He & ->) _] & M).
  apply Ascii.eqb_eq in Hc. subst c.
  assert (fraction_part w7) as Hfrac.
  { destruct M as [(f1 & f2 & ? & -> & [(p & Hp & ->) _]
                    & (g1 & g2 & ? & -> & [(q & Hq & ->) _] & Hall & _))
                  | [-> _]]; [right|now left].
    apply Ascii.eqb_eq in Hp. subst p.
    exists (String q g2). split; [reflexivity|]. split; [discriminate|].
    simpl. unfold digit in *. now rewrite Hq, Hall. }
  assert (two_decimals (String a (String b ""))) as Hab
      by (unfold two_decimals; eauto).
  assert (two_decimals (String d (String e ""))) as Hde
      by (unfold two_decimals; eauto).
  destruct Hopt as [(h1 & h2 & ? & -> & [(dx & Hx & ->) _]
                     & (i1 & i2 & ? & -> & [(dy & Hy & ->) _]
                        & [(dz & Hz & ->) _]))
                   | [-> _]].
  - apply Ascii.eqb_eq in Hz. subst dz.
    exists [String dx (String dy ""); String a (String b "");
            String d (String e "")], w7.
    repeat split; auto. repeat constructor; auto. unfold two_decimals; eauto.
  - exists [String a (String b ""); String d (String e "")], w7.
    repeat split; auto.
Qed.

Lemma two_decimals_int f :
  two_decimals f -> is_field f /\ int f = Returned (decimal f).
Proof.
  intros (a & b & Ha & Hb & ->).
  assert (all isdecimal (String a (String b "")) = true) as H
      by (simpl; now rewrite Ha, Hb).
  split; [now apply decimal_is_field|].
  apply int_decimal; [exact H|discriminate].
Qed.

Lemma timestamp_shape_parses ts :
  timestamp_shape ts -> exists n, timestamp_to_seconds ts = Some n.
Proof.
  intros (fields & suffix & -> & Hlen & Hall & Hfrac).
  assert (Forall is_field fields) as Hf.
  { eapply Forall_impl; [|exact Hall]. intros f Hf. now apply two_decimals_int. }
  assert (is_cut_off suffix) as Hs.
  { destruct Hfrac as [->|(frac & -> & _)]; [now left|right; eauto]. }
  unfold timestamp_to_seconds.
  rewrite timestamp_try_fields; auto; [|destruct fields; simpl in *; [lia|discriminate]].
  destruct fields as [|a [|b [|c [|d fields]]]]; simpl in Hlen; try lia.
  - inversion Hall as [|? ? Ha Hall']; subst. inversion Hall' as [|? ? Hb _]; subst.
    apply two_decimals_int in Ha as [_ Ha]. apply two_decimals_int in Hb as [_ Hb].
    cbn [map_int]. rewrite Ha, Hb. cbn [bind]. eauto.
  - inversion Hall as [|? ? Ha Hall']; subst. inversion Hall' as [|? ? Hb Hall'']; subst.
    inversion Hall'' as [|? ? Hc _]; subst.
    apply two_decimals_int in Ha as [_ Ha]. apply two_decimals_int in Hb as [_ Hb].
    apply two_decimals_int in Hc as [_ Hc].
    cbn [map_int]. rewrite Ha, Hb, Hc. cbn [bind]. eauto.
Qed.

(** What a successful match of [line_regex] says about the line and the
    three groups. *)
Lemma line_regex_match_sound line ts speaker text :
  line_regex_match line = Some (ts, speaker, text) ->
  timestamp_shape ts /\
  exists ws1 ws2 eol,
    line = "[" ++ ts ++ "]" ++ ws1 ++ speaker ++ ":" ++ ws2 ++ text ++ eol /\
    all space ws1 = true /\ speaker <> "" /\ lacks ":" speaker = true /\
    all space ws2 = true /\ all dot text = true /\ (eol = "" \/ eol = nl).
Proof.
  unfold line_regex_match, match_. intros H.
  destruct (run line_regex "" line no_captures _) as [caps|] eqn:E;
    [|discriminate].
  apply run_sound in E. destruct E as (w & rest & caps' & -> & M & Hk).
  inversion Hk; subst caps'. clear Hk.
  cbn [line_regex seq matches Chr Plus] in M.
  destruct M as (? & ? & ? & -> & (_ & -> & _) & M).
  destruct M as (? & ? & ? & -> & [(lb & Hlb & ->) _] & M).
  destruct M as (g1 & ? & caps3 & -> & (caps4 & Mts & ->) & M).
  destruct M as (? & ? & ? & -> & [(rb & Hrb & ->) ->] & M).
  destruct M as (ws1 & ? & ? & -> & [Hws1 ->] & M).
  destruct M as (g2 & ? & ? & ->
                 & (? & (? & g2' & ? & -> & [(s0 & Hs0 & ->) ->] & [Hg2 ->])
                    & ->) & M).
  destruct M as (? & ? & ? & -> & [(co & Hco & ->) ->] & M).
  destruct M as (ws2 & ? & ? & -> & [Hws2 ->] & M).
  destruct M as (g3 & ? & ? & -> & (? & [Hg3 ->] & ->) & (Heol & -> & ->)).
  apply Ascii.eqb_eq in Hlb, Hrb, Hco. subst lb rb co.
  cbn in H. inversion H; subst. clear H.
  split; [eapply timestamp_pattern_shape; eauto|].
  exists ws1, ws2, rest. repeat split; auto.
  - rewrite StrFacts.app_nil_r. simpl.
    repeat (rewrite StrFacts.app_assoc; simpl). reflexivity.
  - discriminate.
  - unfold lacks. simpl. unfold not_colon in *. now rewrite Hs0, Hg2.
Qed.

(** ** The loop body, branch by branch *)

Lemma line_regex_match_timestamp line ts speaker text :
  line_regex_match line = Some (ts, speaker, text) ->
  exists seconds, timestamp_to_seconds ts = Some seconds.
Proof.
  intros H. apply line_regex_match_sound in H as [H _].
  now apply timestamp_shape_parses.
Qed.

Lemma truthy_false (s : string) : truthy s = false <-> s = "".
Proof. destruct s; simpl; split; congruence. Qed.

Lemma truthy_true (s : string) : truthy s = true <-> s <> "".
Proof. destruct s; simpl; split; congruence. Qed.

Lemma loop_body_blank max st i line :
  strip line = "" -> loop_body max st i line = st.
Proof. intros H. unfold loop_body. now rewrite H. Qed.

Lemma loop_body_no_match max st i line :
  strip line <> "" -> line_regex_match (strip line) = None ->
  loop_body max st i line = on_no_match st (strip line).
Proof.
  intros Hne Hm. unfold loop_body. rewrite Hm.
  apply truthy_true in Hne. now rewrite Hne.
Qed.

Lemma loop_body_caption max st i line ts speaker text seconds :
  line_regex_match (strip line) = Some (ts, speaker, text) ->
  timestamp_to_seconds ts = Some seconds ->
  loop_body max st i line =
    if start_new_segment max st (strip speaker) seconds
    then on_new_segment st (strip speaker) seconds (strip text)
    else on_same_segment st (strip text).
Proof.
  intros Hm Hts. unfold loop_body. rewrite Hm, Hts.
  destruct (strip line); [discriminate Hm|reflexivity].
Qed.

(** The three ways a non-blank line is handled; the fourth branch of the
    body, the warning, is not among them. *)
Lemma loop_body_cases max st i line :
  strip line <> "" ->
  (line_regex_match (strip line) = None /\
   loop_body max st i line = on_no_match st (strip line)) \/
  (exists ts speaker text seconds,
      line_regex_match (strip line) = Some (ts, speaker, text) /\
      timestamp_to_seconds ts = Some seconds /\
      ((start_new_segment max st (strip speaker) seconds = true /\
        loop_body max st i line
        = on_new_segment st (strip speaker) seconds (strip text)) \/
       (start_new_segment max st (strip speaker) seconds = false /\
        loop_body max st i line = on_same_segment st (strip text)))).
Proof.
  intros Hne.
  destruct (line_regex_match (strip line)) as [[[ts speaker] text]|] eqn:Hm.
  - right. destruct (line_regex_match_timestamp _ _ _ _ Hm) as [seconds Hts].
    exists ts, speaker, text, seconds. repeat split; auto.
    rewrite (loop_body_caption _ _ _ _ _ _ _ _ Hm Hts).
    destruct (start_new_segment max st (strip speaker) seconds); auto.
  - left. split; auto using loop_body_no_match.
Qed.

Lemma loop_app max (a b : list string) :
  forall i st,
    loop max i (a ++ b)%list st = loop max (i + List.length a) b (loop max i a st).
Proof.
  induction a as [|l a IH]; intros i st; simpl.
  - now rewrite Nat.add_0_r.
  - rewrite IH. f_equal. lia.
Qed.

(** ** Warnings *)

Lemma loop_body_warnings max st i line :
  warnings (loop_body max st i line) = warnings st.
Proof.
  destruct (string_dec (strip line) "") as [E|Hne].
  - now rewrite loop_body_blank.
  - destruct (loop_body_cases max st i line Hne)
      as [[_ ->]|(ts & sp & tx & s & _ & _ & [[_ ->]|[_ ->]])]; reflexivity.
Qed.

Lemma loop_warnings max lines :
  forall i st, warnings (loop max i lines st) = warnings st.
Proof.
  induction lines as [|l ls IH]; intros i st; simpl; [reflexivity|].
  now rewrite IH, loop_body_warnings.
Qed.

(** ** States that differ by the lines already written *)

Lemma ahead_flushed before st st' :
  ahead before st st' -> flushed_lines st = (before ++ flushed_lines st')%list.
Proof.
  intros (Ho & Hs & Hseg). unfold flushed_lines, segment_line.
  rewrite <- Hs. destruct (current_speaker st) as [sp|]; [|exact Ho].
  destruct Hseg as (-> & _ & ->); [discriminate|].
  now rewrite Ho, List.app_assoc.
Qed.

Lemma ahead_start_new max before st st' speaker seconds :
  ahead before st st' ->
  start_new_segment max st speaker seconds
  = start_new_segment max st' speaker seconds.
Proof.
  intros (_ & Hs & Hseg). unfold start_new_segment. rewrite <- Hs.
  destruct (current_speaker st) as [sp|]; [|reflexivity].
  destruct Hseg as (_ & -> & _); [discriminate|reflexivity].
Qed.

Lemma ahead_loop_body max before st st' i j line :
  ahead before st st' ->
  ahead before (loop_body max st i line) (loop_body max st' j line).
Proof.
  intros A. destruct (string_dec (strip line) "") as [E|Hne].
  - now rewrite !loop_body_blank.
  - pose proof (ahead_flushed _ _ _ A) as Hf.
    destruct (loop_body_cases max st i line Hne)
      as [[Hm ->]|(ts & sp & tx & s & Hm & Hts & Hb)].
    + rewrite (loop_body_no_match max st' j line Hne Hm).
      unfold ahead. simpl. rewrite Hf, List.app_assoc. intuition congruence.
    + rewrite (loop_body_caption max st' j _ _ _ _ _ Hm Hts).
      rewrite <- (ahead_start_new max _ _ _ (strip sp) s A).
      destruct Hb as [[-> ->]|[-> ->]].
      * unfold ahead. simpl. rewrite Hf. intuition congruence.
      * destruct A as (Ho & Hs & Hseg). unfold ahead. simpl.
        split; [exact Ho|]. split; [exact Hs|]. intros Hsome.
        destruct (Hseg Hsome) as (E1 & E2 & E3). now rewrite E1, E2, E3.
Qed.

Lemma ahead_loop max before lines :
  forall st st' i j,
    ahead before st st' ->
    ahead before (loop max i lines st) (loop max j lines st').
Proof.
  induction lines as [|l ls IH]; intros st st' i j A; simpl; [exact A|].
  apply IH. now apply ahead_loop_body.
Qed.

(** ** Lines that do not match *)

Lemma ahead_after_no_match st line :
  ahead (flushed_lines st ++ [line]) (on_no_match st line) initial_state.
Proof.
  unfold ahead. simpl. rewrite List.app_nil_r. repeat split; congruence.
Qed.

(** A line that does not match closes what came before it and lets what
    comes after it start afresh. *)
Lemma loop_no_match_split max i line post st :
  strip line <> "" -> line_regex_match (strip line) = None ->
  flushed_lines (loop max i (line :: post) st)
  = (flushed_lines st ++ [strip line] ++ process_lines max post)%list.
Proof.
  intros Hne Hm. cbn [loop]. rewrite (loop_body_no_match _ _ _ _ Hne Hm).
  rewrite List.app_assoc. apply ahead_flushed, ahead_loop, ahead_after_no_match.
Qed.

Lemma process_lines_no_match_split max pre line post :
  strip line <> "" -> line_regex_match (strip line) = None ->
  process_lines max (pre ++ line :: post)
  = (process_lines max pre ++ [strip line] ++ process_lines max post)%list.
Proof.
  intros Hne Hm. unfold process_lines at 1. rewrite loop_app.
  now apply loop_no_match_split.
Qed.

(** ** Lines that stay in the open segment *)

Lemma with_no_more_parts st : with_more_parts st [] = st.
Proof. destruct st. unfold with_more_parts. simpl. now rewrite List.app_nil_r. Qed.

Lemma on_same_segment_parts st text :
  on_same_segment st text = with_more_parts st (filter_none [text]).
Proof.
  unfold on_same_segment, with_more_parts, filter_none. cbn [filter].
  destruct (truthy text); [reflexivity|]. now rewrite List.app_nil_r.
Qed.

Lemma start_new_segment_same max st speaker start seconds :
  current_speaker st = Some speaker ->
  current_segment_start_seconds st = Some start ->
  start_new_segment max st speaker seconds = (seconds - start >? max).
Proof.
  intros Hs Hstart. unfold start_new_segment.
  now rewrite Hs, Hstart, String.eqb_refl.
Qed.

Lemma start_new_segment_other max st speaker cur seconds :
  current_speaker st = Some cur -> speaker <> cur ->
  start_new_segment max st speaker seconds = true.
Proof.
  intros Hs Hne. unfold start_new_segment. rewrite Hs.
  apply String.eqb_neq in Hne. now rewrite Hne.
Qed.

Lemma loop_within_window max speaker start lines :
  forall i st,
    current_speaker st = Some speaker ->
    current_segment_start_seconds st = Some start ->
    Forall (within_window max speaker start) lines ->
    loop max i lines st
    = with_more_parts st (filter_none (map caption_text lines)).
Proof.
  induction lines as [|l ls IH]; intros i st Hs Hstart Hall.
  - simpl. now rewrite with_no_more_parts.
  - inversion Hall as [|? ? (ts & sp & text & seconds & Hm & Hts & Hsp & Hw) Hls];
      subst. cbn [loop].
    rewrite (loop_body_caption _ _ _ _ _ _ _ _ Hm Hts).
    rewrite (start_new_segment_same max st _ start seconds Hs Hstart).
    destruct (Z.gtb_spec (seconds - start) max) as [Hgt|_]; [lia|].
    rewrite on_same_segment_parts, IH; auto.
    assert (caption_text l = strip text) as Hct
        by (unfold caption_text; now rewrite Hm).
    unfold with_more_parts, filter_none. cbn [map filter]. rewrite Hct. simpl.
    destruct (truthy (strip text)); simpl; now rewrite <- ?List.app_assoc.
Qed.

Lemma filter_none_idem (parts : list string) :
  filter_none (filter_none parts) = filter_none parts.
Proof.
  unfold filter_none. induction parts as [|p ps IH]; simpl; [reflexivity|].
  destruct (truthy p) eqn:E; simpl; [rewrite E|]; now rewrite ?IH.
Qed.

(** ** No line is lost *)

Lemma contributes_mono (out out' : list string) line :
  incl out out' -> contributes out line -> contributes out' line.
Proof.
  unfold contributes. intros Hi.
  destruct (line_regex_match (strip line)) as [[[ts sp] tx]|]; [|apply Hi].
  intros (t & ps & Hin & Ht). exists t, ps. auto.
Qed.

Lemma incl_flushed st : incl (output_lines st) (flushed_lines st).
Proof.
  unfold flushed_lines. destruct (current_speaker st).
  - apply incl_appl, incl_refl.
  - apply incl_refl.
Qed.

Lemma covered_flushed st line :
  covered st line -> contributes (flushed_lines st) line.
Proof.
  intros [H|H]; [exact (contributes_mono _ _ _ (incl_flushed st) H)|].
  unfold in_open_segment, contributes in *.
  destruct (line_regex_match (strip line)) as [[[ts sp] tx]|]; [|contradiction].
  destruct H as [Hs Ht]. unfold flushed_lines. rewrite Hs.
  exists (current_segment_start_ts_str st), (current_text_parts st).
  split; [|exact Ht]. apply in_or_app. right. now left.
Qed.

Lemma start_new_segment_false max st speaker seconds :
  start_new_segment max st speaker seconds = false ->
  current_speaker st = Some speaker.
Proof.
  unfold start_new_segment. destruct (current_speaker st) as [cur|];
    [|discriminate].
  destruct (String.eqb_spec speaker cur) as [->|]; [reflexivity|discriminate].
Qed.

Lemma covered_loop_body max st i l line :
  covered st line -> covered (loop_body max st i l) line.
Proof.
  intros C. destruct (string_dec (strip l) "") as [E|Hne].
  - now rewrite loop_body_blank.
  - destruct (loop_body_cases max st i l Hne)
      as [[_ ->]|(ts & sp & tx & s & _ & _ & [[_ ->]|[_ ->]])].
    + left. simpl. eapply contributes_mono; [|exact (covered_flushed _ _ C)].
      apply incl_appl, incl_refl.
    + left. simpl. exact (covered_flushed _ _ C).
    + destruct C as [C|C]; [now left|right].
      unfold in_open_segment in *. simpl.
      destruct (line_regex_match (strip line)) as [[[ts' sp'] tx']|]; [|exact C].
      destruct C as [Hs [Ht|Ht]]; split; auto; [now left|right].
      destruct (truthy (strip tx)); [apply in_or_app|]; auto.
Qed.

Lemma covered_self max st i line :
  strip line <> "" -> covered (loop_body max st i line) line.
Proof.
  intros Hne.
  destruct (loop_body_cases max st i line Hne)
    as [[Hm ->]|(ts & sp & tx & s & Hm & _ & [[_ ->]|[Hn ->]])].
  - left. unfold contributes. rewrite Hm. simpl.
    apply in_or_app. right. now left.
  - right. unfold in_open_segment. rewrite Hm. simpl.
    split; [reflexivity|right; now left].
  - right. unfold in_open_segment. rewrite Hm. simpl.
    split; [exact (start_new_segment_false _ _ _ _ Hn)|].
    destruct (truthy (strip tx)) eqn:E.
    + right. apply in_or_app. right. now left.
    + left. now apply truthy_false.
Qed.

Lemma covered_loop max lines :
  forall i st line,
    covered st line \/ (In line lines /\ strip line <> "") ->
    covered (loop max i lines st) line.
Proof.
  induction lines as [|l ls IH]; intros i st line H; simpl.
  - destruct H as [H|[[] _]]. exact H.
  - apply IH. destruct H as [H|[[->|Hin] Hne]].
    + left. now apply covered_loop_body.
    + left. now apply covered_self.
    + right. auto.
Qed.

Lemma process_lines_contributes max lines line :
  In line lines -> strip line <> "" ->
  contributes (process_lines max lines) line.
Proof.
  intros Hin Hne. apply covered_flushed, covered_loop. right. auto.
Qed.

(** * The claims about [process_transcript] *)

(** C1. Scenario 1: the two captions of A, two seconds apart, become one
    line under the normalized timestamp of the first, and the caption of
    B a second line. *)
Theorem scenario_same_speaker_merges :
  let input_text :=
    "[00:00] A: Hi" ++ nl ++ "[00:02] A: there" ++ nl ++ "[00:05] B: Hey" in
  process_transcript input_text 30
  = "[00:00:00] A: Hi there" ++ nl ++ "[00:00:05] B: Hey" /\
  process_lines 30 (splitlines (strip input_text))
  = ["[00:00:00] A: Hi there"; "[00:00:05] B: Hey"].
Proof. vm_compute. split; reflexivity. Qed.

(** C2, as the claim states it, fails: the line "[bad] A: broken" is not
    dropped, it is written to the output as it stands. *)
Lemma scenario_bad_timestamp_not_dropped :
  let input_text := "[bad] A: broken" ++ nl ++ "[00:00] A: Hi" in
  process_transcript input_text 30
  = "[bad] A: broken" ++ nl ++ "[00:00:00] A: Hi" /\
  process_transcript input_text 30 <> "[00:00:00] A: Hi" /\
  In "[bad] A: broken" (process_lines 30 (splitlines (strip input_text))).
Proof.
  vm_compute. split; [reflexivity|]. split; [discriminate|]. now left.
Qed.

Lemma join_filter_none_single (text : string) :
  join " " (filter_none [text]) = text.
Proof. now destruct text. Qed.

Lemma process_lines_single_caption max line ts speaker text :
  line_regex_match (strip line) = Some (ts, speaker, text) ->
  process_lines max [line]
  = ["[" ++ seconds_to_timestamp (timestamp_to_seconds ts) ++ "] "
         ++ strip speaker ++ ": " ++ strip text].
Proof.
  intros Hm. destruct (line_regex_match_timestamp _ _ _ _ Hm) as [s Hts].
  unfold process_lines. cbn [loop].
  rewrite (loop_body_caption _ _ _ _ _ _ _ _ Hm Hts), Hts.
  change (start_new_segment max initial_state (strip speaker) s) with true.
  unfold flushed_lines, segment_line, format_segment. cbn [on_new_segment
    current_speaker output_lines current_segment_start_ts_str
    current_text_parts initial_state List.app fstr].
  now rewrite join_filter_none_single.
Qed.

(** C3. A caption of the speaker of the open segment that comes more
    than [max] seconds after the start of the segment closes the segment
    and opens a new one at its own time; one that comes no more than
    [max] seconds after the start stays in the segment, whose start is
    left as it was, so that later captions are measured from the same
    start.  Scenario 2: a gap of 40 seconds with [max = 30], given or
    by default, gives two lines; and three captions at 0, 20 and 40
    seconds give two lines although the last two are only 20 seconds
    apart. *)
Theorem gap_from_segment_start :
  (forall max st i line ts speaker text seconds start,
      line_regex_match (strip line) = Some (ts, speaker, text) ->
      timestamp_to_seconds ts = Some seconds ->
      current_speaker st = Some (strip speaker) ->
      current_segment_start_seconds st = Some start ->
      seconds - start > max ->
      let st' := loop_body max st i line in
      st' = on_new_segment st (strip speaker) seconds (strip text) /\
      output_lines st'
      = (output_lines st ++ [segment_line st (strip speaker)])%list /\
      current_segment_start_seconds st' = Some seconds /\
      current_segment_start_ts_str st'
      = Some (seconds_to_timestamp (Some seconds)) /\
      current_text_parts st' = [strip text]) /\
  (forall max st i line ts speaker text seconds start,
      line_regex_match (strip line) = Some (ts, speaker, text) ->
      timestamp_to_seconds ts = Some seconds ->
      current_speaker st = Some (strip speaker) ->
      current_segment_start_seconds st = Some start ->
      seconds - start <= max ->
      let st' := loop_body max st i line in
      st' = on_same_segment st (strip text) /\
      output_lines st' = output_lines st /\
      current_segment_start_seconds st' = Some start) /\
  process_transcript ("[00:00] A: Hi" ++ nl ++ "[00:40] A: still there") 30
  = "[00:00:00] A: Hi" ++ nl ++ "[00:00:40] A: still there" /\
  process_transcript_default
    ("[00:00] A: Hi" ++ nl ++ "[00:40] A: still there")
  = "[00:00:00] A: Hi" ++ nl ++ "[00:00:40] A: still there" /\
  process_transcript
    ("[00:00] A: a" ++ nl ++ "[00:20] A: b" ++ nl ++ "[00:40] A: c") 30
  = "[00:00:00] A: a b" ++ nl ++ "[00:00:40] A: c".
Proof.
  split; [|split; [|repeat split; vm_compute; reflexivity]].
  - intros max st i line ts speaker text seconds start Hm Hts Hs Hstart Hgap st'.
    assert (st' = on_new_segment st (strip speaker) seconds (strip text)) as ->.
    { unfold st'. rewrite (loop_body_caption _ _ _ _ _ _ _ _ Hm Hts).
      rewrite (start_new_segment_same _ _ _ _ _ Hs Hstart).
      destruct (Z.gtb_spec (seconds - start) max); [reflexivity|lia]. }
    repeat split. simpl. unfold flushed_lines. now rewrite Hs.
  - intros max st i line ts speaker text seconds start Hm Hts Hs Hstart Hgap st'.
    assert (st' = on_same_segment st (strip text)) as ->.
    { unfold st'. rewrite (loop_body_caption _ _ _ _ _ _ _ _ Hm Hts).
      rewrite (start_new_segment_same _ _ _ _ _ Hs Hstart).
      destruct (Z.gtb_spec (seconds - start) max); [lia|reflexivity]. }
    repeat split. exact Hstart.
Qed.

Lemma gap_from_segment_start_witness :
  let st := loop_body 30 initial_state 0 "[00:00] A: Hi" in
  loop_body 30 st 1 "[00:40] A: still there"
  = on_new_segment st "A" 40 "still there".
Proof.
  intros st. destruct gap_from_segment_start as [H _].
  apply (H 30 st 1%nat "[00:40] A: still there" "00:40" "A" "still there"
           40 0); reflexivity.
Defined.

Lemma current_speaker_after_caption max st i line ts speaker text :
  line_regex_match (strip line) = Some (ts, speaker, text) ->
  current_speaker (loop_body max st i line) = Some (strip speaker).
Proof.
  intros Hm. destruct (line_regex_match_timestamp _ _ _ _ Hm) as [s Hts].
  rewrite (loop_body_caption _ _ _ _ _ _ _ _ Hm Hts).
  destruct (start_new_segment max st (strip speaker) s) eqn:E; simpl.
  - reflexivity.
  - exact (start_new_segment_false _ _ _ _ E).
Qed.

(** C4. Of two consecutive caption lines whose trimmed speakers differ,
    compared character by character, the second closes the segment the
    first is in and opens a segment of its own, whatever the two
    timestamps are: two separate lines are written. *)
Theorem speaker_change_starts_new_segment :
  forall max st i line1 line2 ts1 speaker1 text1 ts2 speaker2 text2,
    line_regex_match (strip line1) = Some (ts1, speaker1, text1) ->
    line_regex_match (strip line2) = Some (ts2, speaker2, text2) ->
    strip speaker1 <> strip speaker2 ->
    let st1 := loop_body max st i line1 in
    let st2 := loop_body max st1 (S i) line2 in
    current_speaker st1 = Some (strip speaker1) /\
    output_lines st2
    = (output_lines st1 ++ [segment_line st1 (strip speaker1)])%list /\
    current_speaker st2 = Some (strip speaker2) /\
    current_text_parts st2 = [strip text2] /\
    current_segment_start_seconds st2 = timestamp_to_seconds ts2 /\
    current_segment_start_ts_str st2
    = Some (seconds_to_timestamp (timestamp_to_seconds ts2)) /\
    flushed_lines st2
    = (output_lines st1 ++ [segment_line st1 (strip speaker1);
                            segment_line st2 (strip speaker2)])%list.
Proof.
  intros max st i line1 line2 ts1 speaker1 text1 ts2 speaker2 text2
         Hm1 Hm2 Hne st1 st2.
  pose proof (current_speaker_after_caption max st i _ _ _ _ Hm1) as Hs1.
  fold st1 in Hs1.
  destruct (line_regex_match_timestamp _ _ _ _ Hm2) as [s2 Hts2].
  assert (st2 = on_new_segment st1 (strip speaker2) s2 (strip text2)) as E.
  { unfold st2. rewrite (loop_body_caption _ _ _ _ _ _ _ _ Hm2 Hts2).
    rewrite (start_new_segment_other max st1 _ _ s2 Hs1); auto. }
  assert (flushed_lines st1
          = (output_lines st1 ++ [segment_line st1 (strip speaker1)])%list)
    as Hf by (unfold flushed_lines; now rewrite Hs1).
  rewrite E, Hts2. cbn [on_new_segment output_lines current_speaker
    current_text_parts current_segment_start_seconds
    current_segment_start_ts_str].
  repeat split; auto.
  unfold flushed_lines at 1. cbn [on_new_segment output_lines current_speaker].
  rewrite Hf, <- List.app_assoc. reflexivity.
Qed.

Lemma speaker_change_starts_new_segment_witness :
  let st1 := loop_body 30 initial_state 0 "[00:10] Ann: x" in
  let st2 := loop_body 30 st1 1 "[00:05] ann: y" in
  flushed_lines st2 = ["[00:00:10] Ann: x"; "[00:00:05] ann: y"].
Proof.
  intros st1 st2.
  assert (strip "Ann" <> strip "ann") as Hne by discriminate.
  destruct (speaker_change_starts_new_segment
              30 initial_state 0%nat "[00:10] Ann: x" "[00:05] ann: y"
              "00:10" "Ann" "x" "00:05" "ann" "y" eq_refl eq_refl Hne)
    as (_ & _ & _ & _ & _ & _ & H).
  exact H.
Defined.

(** C5. A line that is not empty once trimmed and does not match the
    caption pattern is written to the output, trimmed as every line is, on
    a line of its own and at its place.  The body of the loop first writes
    the line of the open segment, when there is one, then the line itself,
    and leaves no segment open, so that a caption line that follows opens
    a segment of its own.  The output for the whole text is what the lines
    before it give, the open segment among them, then the line, then what
    the lines after it give on their own.  A caption of A, a line "[END]"
    and a second caption of A one second after the first give three
    lines. *)
Theorem passthrough_line_kept_apart :
  (forall max line,
      strip line <> "" -> line_regex_match (strip line) = None ->
      (forall st i,
          let st' := loop_body max st i line in
          output_lines st'
          = match current_speaker st with
            | Some speaker =>
                (output_lines st ++ [segment_line st speaker; strip line])%list
            | None => (output_lines st ++ [strip line])%list
            end /\
          current_speaker st' = None /\
          flushed_lines st' = output_lines st' /\
          forall cap ts speaker text seconds,
            line_regex_match (strip cap) = Some (ts, speaker, text) ->
            timestamp_to_seconds ts = Some seconds ->
            let st'' := loop_body max st' (S i) cap in
            st'' = on_new_segment st' (strip speaker) seconds (strip text) /\
            output_lines st'' = output_lines st' /\
            current_text_parts st'' = [strip text]) /\
      (forall pre post,
          process_lines max (pre ++ line :: post)
          = (process_lines max pre ++ [strip line]
                           ++ process_lines max post)%list) /\
      (forall lines,
          In line lines -> In (strip line) (process_lines max lines)) /\
      (strip line = line ->
       forall lines, In line lines -> In line (process_lines max lines))) /\
  process_lines 30 ["[00:00] A: Hi"; "  [END] "; "[00:01] A: again"]
  = ["[00:00:00] A: Hi"; "[END]"; "[00:00:01] A: again"] /\
  process_transcript
    ("[00:00] A: Hi" ++ nl ++ "[END]" ++ nl ++ "[00:01] A: again") 30
  = "[00:00:00] A: Hi" ++ nl ++ "[END]" ++ nl ++ "[00:00:01] A: again".
Proof.
  split; [|split; vm_compute; reflexivity].
  intros max line Hne Hm.
  assert (forall pre post,
             process_lines max (pre ++ line :: post)
             = (process_lines max pre ++ [strip line]
                              ++ process_lines max post)%list) as H
      by (intros; now apply process_lines_no_match_split).
  assert (forall lines,
             In line lines -> In (strip line) (process_lines max lines)) as Hin.
  { intros lines Hl. apply in_split in Hl as (pre & post & ->).
    rewrite H. apply in_or_app. right. now left. }
  split; [|split; [exact H|split; [exact Hin|]]].
  - intros st i st'. unfold st'.
    rewrite (loop_body_no_match _ _ _ _ Hne Hm).
    split; [|split; [reflexivity|split; [reflexivity|]]].
    + cbn [on_no_match output_lines]. unfold flushed_lines.
      destruct (current_speaker st) as [speaker|]; [|reflexivity].
      now rewrite <- List.app_assoc.
    + intros cap ts speaker text seconds Hc Hts.
      rewrite (loop_body_caption _ _ _ _ _ _ _ _ Hc Hts).
      change (start_new_segment max (on_no_match st (strip line))
                                (strip speaker) seconds) with true.
      cbv iota. repeat split.
  - intros E lines Hl. rewrite <- E at 1. now apply Hin.
Qed.

Lemma passthrough_line_kept_apart_witness :
  let st := loop_body 30 initial_state 0 "[00:00] A: Hi" in
  output_lines (loop_body 30 st 1 "  [END] ") = ["[00:00:00] A: Hi"; "[END]"] /\
  process_lines 30 (["[00:00] A: Hi"] ++ "  [END] " :: ["[00:01] A: again"])
  = ["[00:00:00] A: Hi"; "[END]"; "[00:00:01] A: again"].
Proof.
  intros st.
  assert (strip "  [END] " <> "") as Hne by discriminate.
  destruct passthrough_line_kept_apart as [H _].
  destruct (H 30 "  [END] " Hne eq_refl) as (Hstep & Hsplit & _).
  split.
  - exact (proj1 (Hstep st 1%nat)).
  - exact (Hsplit ["[00:00] A: Hi"] ["[00:01] A: again"]).
Defined.

(** C6. When a caption line opens a segment and the caption lines after
    it are of the same speaker and no more than [max] seconds after it,
    they all end up in one line, and the timestamp of that line is
    [seconds_to_timestamp] of what [timestamp_to_seconds] read in the
    first line: the time written anew, not the text of the input. *)
Theorem merged_line_has_normalized_first_timestamp :
  forall max st i line lines ts speaker text seconds,
    line_regex_match (strip line) = Some (ts, speaker, text) ->
    timestamp_to_seconds ts = Some seconds ->
    start_new_segment max st (strip speaker) seconds = true ->
    Forall (within_window max (strip speaker) seconds) lines ->
    flushed_lines (loop max i (line :: lines) st)
    = (flushed_lines st
         ++ [("[" ++ seconds_to_timestamp (timestamp_to_seconds ts) ++ "] "
                  ++ strip speaker ++ ": "
                  ++ join " " (filter_none (map caption_text (line :: lines))))%string])%list.
Proof.
  intros max st i line lines ts speaker text seconds Hm Hts Hnew Hall.
  cbn [loop]. rewrite (loop_body_caption _ _ _ _ _ _ _ _ Hm Hts), Hnew.
  rewrite (loop_within_window max (strip speaker) seconds lines);
    [|reflexivity|reflexivity|exact Hall].
  unfold flushed_lines at 1, segment_line, format_segment.
  cbn [with_more_parts on_new_segment current_speaker output_lines
       current_segment_start_ts_str current_text_parts fstr map].
  assert (caption_text line = strip text) as ->
      by (unfold caption_text; now rewrite Hm).
  rewrite Hts. do 6 f_equal.
  change ([strip text] ++ ?x)%list with (strip text :: x).
  unfold filter_none at 1 3. cbn [filter].
  destruct (truthy (strip text)); now rewrite filter_none_idem.
Qed.

Lemma merged_line_has_normalized_first_timestamp_witness :
  process_lines 30 ["[00:00] A: Hi"; "[00:02] A: there"]
  = ["[00:00:00] A: Hi there"] /\ "00:00:00" <> "00:00".
Proof.
  split; [|discriminate].
  assert (Forall (within_window 30 (strip "A") 0) ["[00:02] A: there"]) as Hall.
  { constructor; [|constructor].
    exists "00:02", "A", "there", 2. repeat split; reflexivity || discriminate. }
  exact (merged_line_has_normalized_first_timestamp
           30 initial_state 0%nat "[00:00] A: Hi" ["[00:02] A: there"]
           "00:00" "A" "Hi" 0 eq_refl eq_refl eq_refl Hall).
Defined.

(** C10. The text that the first group of the pattern captures is two
    or three colon-separated fields of two decimal digits, with or
    without a dot and decimal digits after them, so
    [timestamp_to_seconds] reads a number in it; no warning is ever
    logged; and every line of the input that is not empty once trimmed
    shows in the output, as itself when it does not match the pattern and
    in a segment line of its speaker that holds its text when it does. *)
Theorem invalid_timestamp_branch_unreachable :
  (forall line ts speaker text,
      line_regex_match line = Some (ts, speaker, text) ->
      timestamp_shape ts /\
      exists seconds, timestamp_to_seconds ts = Some seconds) /\
  (forall max input_text, process_warnings max input_text = []) /\
  (forall max input_text line,
      let lines := splitlines (strip input_text) in
      In line lines -> strip line <> "" ->
      contributes (process_lines max lines) line).
Proof.
  split; [|split].
  - intros line ts speaker text Hm. split.
    + now apply line_regex_match_sound in Hm.
    + exact (line_regex_match_timestamp _ _ _ _ Hm).
  - intros max input_text. unfold process_warnings.
    now rewrite loop_warnings.
  - intros max input_text line lines Hin Hne.
    now apply process_lines_contributes.
Qed.

Lemma invalid_timestamp_branch_unreachable_witness :
  (exists seconds, timestamp_to_seconds "00:01:02.5" = Some seconds) /\
  contributes
    (process_lines 30 (splitlines (strip ("[00:00] A: Hi" ++ nl ++ "[END]"))))
    "[END]".
Proof.
  destruct invalid_timestamp_branch_unreachable as (Hts & _ & Hc).
  split.
  - exact (proj2 (Hts "[00:01:02.5] A: Hi" "00:01:02.5" "A" "Hi" eq_refl)).
  - apply (Hc 30 ("[00:00] A: Hi" ++ nl ++ "[END]") "[END]").
    + vm_compute. right. now left.
    + discriminate.
Defined.

(** * Further properties of the transcript functions *)

(** ** Trimming *)

Lemma lstrip_by_all p (s : string) : all p s = true -> lstrip_by p s = "".
Proof.
  induction s as [|c s IH]; simpl; [reflexivity|].
  intros H. apply andb_true_iff in H as [Hc Hs]. now rewrite Hc, IH.
Qed.

Lemma lstrip_by_first p (s : string) c t :
  lstrip_by p s = String c t -> p c = false.
Proof.
  induction s as [|a s IH]; simpl; [discriminate|].
  destruct (p a) eqn:E; [exact IH|]. intros H. now inversion H; subst.
Qed.

Lemma rstrip_by_cons p c (t : string) :
  p c = false -> rstrip_by p (String c t) = String c (rstrip_by p t).
Proof. intros H. simpl. rewrite H. now destruct (rstrip_by p t). Qed.

Lemma rstrip_by_idem p (s : string) :
  rstrip_by p (rstrip_by p s) = rstrip_by p s.
Proof.
  induction s as [|c s IH]; simpl; [reflexivity|].
  destruct (rstrip_by p s) as [|a r] eqn:E.
  - destruct (p c) eqn:Hc; simpl; [reflexivity|now rewrite Hc].
  - remember (String a r) as t eqn:Et.
    simpl. rewrite IH. now subst t.
Qed.

Lemma strip_by_idem p (s : string) :
  strip_by p (strip_by p s) = strip_by p s.
Proof.
  unfold strip_by. destruct (lstrip_by p s) as [|c t] eqn:E; [reflexivity|].
  pose proof (lstrip_by_first _ _ _ _ E) as Hc.
  rewrite (rstrip_by_cons _ _ _ Hc), (lstrip_by_head _ _ _ Hc).
  rewrite <- (rstrip_by_cons _ _ _ Hc). apply rstrip_by_idem.
Qed.

Lemma strip_idem (s : string) : strip (strip s) = strip s.
Proof. apply strip_by_idem. Qed.

Lemma strip_all_space (s : string) : all isspace s = true -> strip s = "".
Proof. intros H. unfold strip, strip_by. now rewrite lstrip_by_all. Qed.

(** ** Line numbers *)

Lemma loop_body_index max st i j line :
  loop_body max st i line = loop_body max st j line.
Proof.
  destruct (string_dec (strip line) "") as [E|Hne].
  - now rewrite !loop_body_blank.
  - destruct (loop_body_cases max st i line Hne)
      as [[Hm ->]|(ts & sp & tx & s & Hm & Hts & _)].
    + now rewrite (loop_body_no_match _ _ j _ Hne Hm).
    + now rewrite !(loop_body_caption _ _ _ _ _ _ _ _ Hm Hts).
Qed.

Lemma loop_index max lines :
  forall i j st, loop max i lines st = loop max j lines st.
Proof.
  induction lines as [|l ls IH]; intros i j st; simpl; [reflexivity|].
  rewrite (loop_body_index max st i j). apply IH.
Qed.

Lemma loop_body_strip max st i line :
  loop_body max st i (strip line) = loop_body max st i line.
Proof. unfold loop_body. now rewrite strip_idem. Qed.

Lemma loop_map_strip max lines :
  forall i st, loop max i (map strip lines) st = loop max i lines st.
Proof.
  induction lines as [|l ls IH]; intros i st; simpl; [reflexivity|].
  now rewrite loop_body_strip, IH.
Qed.

(** ** Blank lines and white space around lines *)

Lemma loop_trimmed max lines :
  forall i j st,
    loop max i lines st = loop max j (filter truthy (map strip lines)) st.
Proof.
  induction lines as [|l ls IH]; intros i j st; simpl; [reflexivity|].
  destruct (truthy (strip l)) eqn:E.
  - cbn [loop]. rewrite loop_body_strip, (loop_body_index max st j i).
    apply IH.
  - apply truthy_false in E. rewrite (loop_body_blank _ _ _ _ E). apply IH.
Qed.

Lemma output_of_trimmed_lines_aux max lines :
  process_lines max lines = process_lines max (filter truthy (map strip lines)).
Proof. unfold process_lines. now rewrite (loop_trimmed max lines 0 0). Qed.

(** X1. The output depends on the lines of the input only through the
    trimmed lines that are not empty: blank lines and white space around
    a line change nothing. *)
Theorem output_of_trimmed_lines :
  forall max lines,
    process_lines max lines
    = process_lines max (filter truthy (map strip lines)).
Proof.
  intros max lines. unfold process_lines. now rewrite (loop_trimmed max lines 0 0).
Qed.

(** ** How many lines are written *)

Lemma flushed_lines_step max st i line :
  (List.length (flushed_lines (loop_body max st i line))
   <= List.length (flushed_lines st) + (if truthy (strip line) then 1 else 0))%nat.
Proof.
  destruct (truthy (strip line)) eqn:E.
  - apply truthy_true in E.
    destruct (loop_body_cases max st i line E)
      as [[_ ->]|(ts & sp & tx & s & _ & _ & [[_ ->]|[Hn ->]])].
    + unfold flushed_lines at 1. simpl. rewrite List.length_app. simpl. lia.
    + unfold flushed_lines at 1. simpl. rewrite List.length_app. simpl. lia.
    + apply start_new_segment_false in Hn. unfold flushed_lines. simpl.
      rewrite Hn, !List.length_app. simpl. lia.
  - apply truthy_false in E. rewrite (loop_body_blank _ _ _ _ E). lia.
Qed.

Lemma flushed_lines_loop max lines :
  forall i st,
    (List.length (flushed_lines (loop max i lines st))
     <= List.length (flushed_lines st)
        + List.length (filter truthy (map strip lines)))%nat.
Proof.
  induction lines as [|l ls IH]; intros i st; simpl; [lia|].
  specialize (IH (S i) (loop_body max st i l)).
  pose proof (flushed_lines_step max st i l) as H.
  destruct (truthy (strip l)); simpl; lia.
Qed.

Lemma contributes_not_nil out line : contributes out line -> out <> [].
Proof.
  unfold contributes. intros H ->.
  destruct (line_regex_match (strip line)) as [[[ts sp] tx]|].
  - destruct H as (t & ps & [] & _).
  - destruct H.
Qed.

(** X2. Merging never adds lines: the output has at most as many lines
    as the input has lines that are not blank, and it has none exactly
    when the input has none. *)
Theorem output_line_count :
  forall max lines,
    (List.length (process_lines max lines)
     <= List.length (filter truthy (map strip lines)))%nat /\
    (process_lines max lines = [] <-> filter truthy (map strip lines) = []).
Proof.
  intros max lines. split; [exact (flushed_lines_loop max lines 0 initial_state)|].
  split.
  - intros E. destruct (filter truthy (map strip lines)) as [|t ts] eqn:F;
      [reflexivity|exfalso].
    assert (In t (filter truthy (map strip lines))) as Hin
        by (rewrite F; now left).
    apply filter_In in Hin as [Hin Ht]. apply in_map_iff in Hin as (l & <- & Hl).
    apply truthy_true in Ht.
    exact (contributes_not_nil _ _ (process_lines_contributes max _ _ Hl Ht) E).
  - intros F. rewrite output_of_trimmed_lines_aux, F. reflexivity.
Qed.

(** ** Blank input *)

Lemma lstrip_by_nil p (s : string) : lstrip_by p s = "" -> all p s = true.
Proof.
  induction s as [|c s IH]; simpl; [reflexivity|].
  destruct (p c); [exact IH|discriminate].
Qed.

Lemma strip_nil_iff (s : string) : strip s = "" <-> all isspace s = true.
Proof.
  split; [|apply strip_all_space]. unfold strip, strip_by. intros H.
  destruct (lstrip_by isspace s) as [|c t] eqn:E; [now apply lstrip_by_nil|].
  rewrite (rstrip_by_cons _ _ _ (lstrip_by_first _ _ _ _ E)) in H.
  discriminate.
Qed.

Lemma strip_first c (t : string) : isspace c = false -> strip (String c t) <> "".
Proof.
  intros Hc. unfold strip, strip_by.
  rewrite (lstrip_by_head _ _ _ Hc), (rstrip_by_cons _ _ _ Hc). discriminate.
Qed.

Lemma linebreak_is_space c : islinebreak c = true -> isspace c = true.
Proof.
  destruct c as [[] [] [] [] [] [] [] []]; intros H;
    try discriminate H; reflexivity.
Qed.

Lemma rev_app (a b : string) : rev (a ++ b) = rev b ++ rev a.
Proof. unfold rev at 1. now rewrite rev_onto_app, rev_onto_acc. Qed.

Lemma splitlines_from_first (s : string) :
  forall cur, cur <> "" ->
    exists w rest, splitlines_from cur s = (rev cur ++ w) :: rest.
Proof.
  induction s as [|a s IH]; intros cur Hne; simpl.
  - destruct cur; [congruence|]. exists "", []. now rewrite StrFacts.app_nil_r.
  - destruct (islinebreak a).
    + destruct (Ascii.eqb a CR); [destruct s as [|b s]; [|destruct (Ascii.eqb b LF)]|];
        eexists "", _; rewrite StrFacts.app_nil_r; reflexivity.
    + destruct (IH (String a cur)) as (w & rest & ->); [discriminate|].
      exists (String a w), rest. f_equal.
      change (String a cur) with (String a "" ++ cur).
      rewrite rev_app, StrFacts.app_assoc. reflexivity.
Qed.

Lemma splitlines_not_blank c (t : string) :
  isspace c = false ->
  exists line, In line (splitlines (String c t)) /\ strip line <> "".
Proof.
  intros Hc. unfold splitlines. simpl.
  destruct (islinebreak c) eqn:Hb;
    [apply linebreak_is_space in Hb; congruence|].
  destruct (splitlines_from_first t (String c "")) as (w & rest & ->);
    [discriminate|].
  exists (String c w). split; [now left|now apply strip_first].
Qed.

Lemma join_not_empty sep (parts : list string) o :
  In o parts -> o <> "" -> join sep parts <> "".
Proof.
  induction parts as [|p ps IH]; intros Hin Hne; [destruct Hin|].
  destruct ps as [|q ps].
  - destruct Hin as [->|[]]. exact Hne.
  - change (join sep (p :: q :: ps)) with (p ++ sep ++ join sep (q :: ps)).
    destruct Hin as [->|Hin].
    + destruct o; [congruence|discriminate].
    + specialize (IH Hin Hne). intros E.
      destruct p; simpl in E; [|discriminate].
      destruct sep; simpl in E; [contradiction|discriminate].
Qed.

Lemma contributes_line out line :
  strip line <> "" -> contributes out line -> exists o, In o out /\ o <> "".
Proof.
  unfold contributes. intros Hne H.
  destruct (line_regex_match (strip line)) as [[[ts sp] tx]|].
  - destruct H as (t & ps & Hin & _). eexists. split; [exact Hin|discriminate].
  - eauto.
Qed.

(** X3. The output text is empty exactly when the input text is white
    space only, the empty text included. *)
Theorem output_empty_iff_input_blank :
  forall input_text max,
    process_transcript input_text max = "" <-> all isspace input_text = true.
Proof.
  intros x max. unfold process_transcript. split.
  - intros E. apply strip_nil_iff.
    destruct (strip x) as [|c t] eqn:Hx; [reflexivity|exfalso].
    assert (isspace c = false) as Hc.
    { unfold strip, strip_by in Hx.
      destruct (lstrip_by isspace x) as [|a u] eqn:L; [discriminate|].
      pose proof (lstrip_by_first _ _ _ _ L) as Ha.
      rewrite (rstrip_by_cons _ _ _ Ha) in Hx. now inversion Hx; subst. }
    destruct (splitlines_not_blank c t Hc) as (line & Hin & Hne).
    pose proof (process_lines_contributes max _ _ Hin Hne) as C.
    destruct (contributes_line _ _ Hne C) as (o & Ho & Hno).
    exact (join_not_empty _ _ _ Ho Hno E).
  - intros H. now rewrite (strip_all_space _ H).
Qed.

(** ** The codec, both ways *)

(** X4. Reading what [seconds_to_timestamp] wrote gives the number of
    seconds back, [None] and negative numbers counting as zero: the call
    returns for every number whose hours have no more than 4300 digits,
    and [timestamp_to_seconds] reads in its text the number it was given.
    So two different numbers of seconds, none negative, never get the same
    text, and formatting what was read gives the text again. *)
Theorem timestamp_round_trip :
  (forall total_seconds,
      clamped total_seconds / 3600 < 10 ^ max_str_digits ->
      exists s,
        seconds_to_timestamp_exn total_seconds = Returned s /\
        timestamp_to_seconds s = Some (clamped total_seconds)) /\
  (forall a b sa sb,
      0 <= a -> 0 <= b -> a <> b ->
      seconds_to_timestamp_exn (Some a) = Returned sa ->
      seconds_to_timestamp_exn (Some b) = Returned sb ->
      sa <> sb) /\
  (forall total_seconds s,
      seconds_to_timestamp_exn total_seconds = Returned s ->
      timestamp_to_seconds s = Some (clamped total_seconds) /\
      seconds_to_timestamp_exn (timestamp_to_seconds s) = Returned s).
Proof.
  split; [|split].
  - intros x Hlim. exists (seconds_to_timestamp x).
    split; [now apply seconds_to_timestamp_exn_returns|].
    apply timestamp_to_seconds_of_formatted.
  - intros a b sa sb Ha Hb Hne Ea Eb E.
    apply seconds_to_timestamp_exn_text in Ea as [-> _].
    apply seconds_to_timestamp_exn_text in Eb as [-> _].
    pose proof (timestamp_to_seconds_of_formatted (Some a)) as Pa.
    pose proof (timestamp_to_seconds_of_formatted (Some b)) as Pb.
    rewrite E, Pb in Pa. simpl in Pa. inversion Pa. lia.
  - intros x s E. apply seconds_to_timestamp_exn_text in E as [-> Hlim].
    rewrite timestamp_to_seconds_of_formatted. split; [reflexivity|].
    pose proof (clamped_nonneg x) as Hn.
    assert (clamped (Some (clamped x)) = clamped x) as Hc
        by (cbn [clamped]; lia).
    rewrite seconds_to_timestamp_exn_returns by (rewrite Hc; exact Hlim).
    now rewrite !seconds_to_timestamp_eq, Hc.
Qed.

Lemma timestamp_round_trip_witness :
  (exists s,
      seconds_to_timestamp_exn (Some 3725) = Returned s /\
      timestamp_to_seconds s = Some 3725) /\
  "00:00:59" <> "00:01:00" /\
  seconds_to_timestamp_exn (timestamp_to_seconds "00:01:00")
  = Returned "00:01:00".
Proof.
  destruct timestamp_round_trip as (H1 & H2 & H3). split; [|split].
  - apply (H1 (Some 3725)). vm_compute. reflexivity.
  - apply (H2 59 60); try lia; reflexivity.
  - apply (H3 (Some 60)). reflexivity.
Defined.

(** ** The times of caption lines *)

Lemma decimal_digit_range c :
  isdecimal c = true -> 0 <= Z.of_N (code c) - 48 <= 9.
Proof.
  unfold isdecimal, in_range. intros H.
  apply andb_true_iff in H as [H1 H2].
  apply N.leb_le in H1, H2. lia.
Qed.

Lemma two_decimals_range f : two_decimals f -> 0 <= decimal f <= 99.
Proof.
  intros (a & b & Ha & Hb & ->). unfold decimal. cbn [decimal_from].
  pose proof (decimal_digit_range a Ha). pose proof (decimal_digit_range b Hb).
  lia.
Qed.

Lemma timestamp_shape_range ts :
  timestamp_shape ts ->
  exists n, timestamp_to_seconds ts = Some n /\ 0 <= n <= 362439.
Proof.
  intros (fields & suffix & -> & Hlen & Hall & Hfrac).
  assert (Forall is_field fields) as Hf.
  { eapply Forall_impl; [|exact Hall]. intros f Hf. now apply two_decimals_int. }
  assert (is_cut_off suffix) as Hs.
  { destruct Hfrac as [->|(frac & -> & _)]; [now left|right; eauto]. }
  unfold timestamp_to_seconds.
  rewrite timestamp_try_fields; auto; [|destruct fields; simpl in *; [lia|discriminate]].
  destruct fields as [|a [|b [|c [|d fields]]]]; simpl in Hlen; try lia.
  - inversion Hall as [|? ? Ha Hall']; subst. inversion Hall' as [|? ? Hb _]; subst.
    pose proof (two_decimals_range _ Ha). pose proof (two_decimals_range _ Hb).
    apply two_decimals_int in Ha as [_ Ha]. apply two_decimals_int in Hb as [_ Hb].
    cbn [map_int]. rewrite Ha, Hb. cbn [bind]. eexists. split; [reflexivity|lia].
  - inversion Hall as [|? ? Ha Hall']; subst. inversion Hall' as [|? ? Hb Hall'']; subst.
    inversion Hall'' as [|? ? Hc _]; subst.
    pose proof (two_decimals_range _ Ha). pose proof (two_decimals_range _ Hb).
    pose proof (two_decimals_range _ Hc).
    apply two_decimals_int in Ha as [_ Ha]. apply two_decimals_int in Hb as [_ Hb].
    apply two_decimals_int in Hc as [_ Hc].
    cbn [map_int]. rewrite Ha, Hb, Hc. cbn [bind]. eexists. split; [reflexivity|lia].
Qed.

(** Inside the loop the call [seconds_to_timestamp(current_seconds)]
    returns: the time of a caption is far below the limit. *)
Lemma caption_time_formats line ts speaker text seconds :
  line_regex_match line = Some (ts, speaker, text) ->
  timestamp_to_seconds ts = Some seconds ->
  seconds_to_timestamp_exn (Some seconds)
  = Returned (seconds_to_timestamp (Some seconds)).
Proof.
  intros Hm Hts. apply line_regex_match_sound in Hm as [Hshape _].
  destruct (timestamp_shape_range _ Hshape) as (n & Hn & Hr).
  rewrite Hts in Hn. inversion Hn; subst n.
  apply seconds_to_timestamp_exn_returns. cbn [clamped].
  pose proof limit_above_100.
  assert (Z.max 0 seconds / 3600 < 101)
    by (apply Z.div_lt_upper_bound; lia).
  lia.
Qed.

(** X5. The time of a line that matches the caption pattern is a number
    of seconds from 0 to 362439, the value of "99:99:99": fields above 59
    are taken as they are, and the bound is reached, where the timestamp
    written is "100:40:39". *)
Theorem caption_seconds_range :
  (forall line ts speaker text,
      line_regex_match line = Some (ts, speaker, text) ->
      exists seconds,
        timestamp_to_seconds ts = Some seconds /\ 0 <= seconds <= 362439) /\
  process_transcript "[99:99:99] A: x" 30 = "[100:40:39] A: x".
Proof.
  split; [|vm_compute; reflexivity].
  intros line ts speaker text Hm.
  apply line_regex_match_sound in Hm as [Hs _].
  now apply timestamp_shape_range.
Qed.

Lemma caption_seconds_range_witness :
  exists seconds,
    timestamp_to_seconds "01:15" = Some seconds /\ 0 <= seconds <= 362439.
Proof.
  destruct caption_seconds_range as [H _].
  exact (H "[01:15] A: x" "01:15" "A" "x" eq_refl).
Defined.

(** ** The speakers named on the command line *)

Lemma all_lstrip_by q p (s : string) :
  all q s = true -> all q (lstrip_by p s) = true.
Proof.
  induction s as [|c s IH]; simpl; [reflexivity|].
  intros H. destruct (p c); [|exact H].
  apply andb_true_iff in H as [_ H]. now apply IH.
Qed.

Lemma all_rstrip_by q p (s : string) :
  all q s = true -> all q (rstrip_by p s) = true.
Proof.
  induction s as [|c s IH]; simpl; [reflexivity|].
  intros H. apply andb_true_iff in H as [Hc Hs]. specialize (IH Hs).
  destruct (rstrip_by p s) as [|a r].
  - destruct (p c); simpl; [reflexivity|now rewrite Hc].
  - cbn [all]. rewrite Hc. exact IH.
Qed.

Lemma all_strip q (s : string) : all q s = true -> all q (strip s) = true.
Proof. intros H. now apply all_rstrip_by, all_lstrip_by. Qed.

Lemma all_split q sep (s : string) :
  all q s = true -> Forall (fun f => all q f = true) (split sep s).
Proof.
  induction s as [|c s IH]; simpl; intros H.
  - constructor; [reflexivity|constructor].
  - apply andb_true_iff in H as [Hc Hs]. specialize (IH Hs).
    destruct (Ascii.eqb c sep).
    + constructor; [reflexivity|exact IH].
    + destruct (split sep s) as [|h t]; inversion IH; subst;
        constructor; simpl; try rewrite Hc; auto.
Qed.

Lemma named_speakers_names fields :
  Forall (fun f => lacks "," f = true) fields ->
  Forall is_name (map strip (filter (fun s => truthy (strip s)) fields)).
Proof.
  induction 1 as [|f fs Hf Hfs IH]; simpl; [constructor|].
  destruct (truthy (strip f)) eqn:E; [|exact IH].
  constructor; [|exact IH]. repeat split.
  - now apply truthy_true.
  - apply strip_idem.
  - now apply all_strip.
Qed.

Lemma named_speakers_join names :
  Forall is_name names ->
  map strip (filter (fun s => truthy (strip s)) names) = names.
Proof.
  induction 1 as [|n ns (Hne & Hs & _) Hns IH]; [reflexivity|].
  cbn [filter]. rewrite Hs. apply truthy_true in Hne. rewrite Hne.
  cbn [map]. now rewrite Hs, IH.
Qed.

(** X6. The list of speakers that [main] takes from the [--speakers]
    argument is never empty; each of its names is not empty, has no white
    space around it and holds no comma; an argument that holds nothing but
    commas and white space gives Host and Guest; and names that are put
    together with commas come back as they were. *)
Theorem speakers_of_argument_names :
  (forall arg, speakers_of_argument arg <> [] /\
               Forall is_name (speakers_of_argument arg)) /\
  (forall arg,
      all (fun c => isspace c || Ascii.eqb c ",") arg = true ->
      speakers_of_argument arg = ["Host"; "Guest"]) /\
  (forall names,
      names <> [] -> Forall is_name names ->
      speakers_of_argument (join "," names) = names).
Proof.
  split; [|split].
  - intros arg. unfold speakers_of_argument.
    pose proof (named_speakers_names _ (split_fields_lack "," arg)) as H.
    destruct (map strip (filter _ (split "," arg))) as [|n ns].
    + split; [discriminate|]. repeat constructor; discriminate.
    + split; [discriminate|exact H].
  - intros arg Hall. unfold speakers_of_argument.
    assert (filter (fun s => truthy (strip s)) (split "," arg) = []) as ->;
      [|reflexivity].
    pose proof (all_split _ "," arg Hall) as Hq.
    pose proof (split_fields_lack "," arg) as Hl.
    induction (split "," arg) as [|f fs IH]; [reflexivity|].
    inversion Hq; inversion Hl; subst. simpl.
    assert (strip f = "") as ->; [|now apply IH].
    apply strip_all_space.
    match goal with
    | H1 : all _ f = true, H2 : lacks _ f = true |- _ =>
        revert H1 H2; unfold lacks; clear
    end.
    induction f as [|c f IHf]; simpl; [reflexivity|].
    intros H1 H2. apply andb_true_iff in H1 as [H1 H1'].
    apply andb_true_iff in H2 as [H2 H2']. apply negb_true_iff in H2.
    rewrite H2, orb_false_r in H1. now rewrite H1, IHf.
  - intros names Hne Hall. unfold speakers_of_argument.
    rewrite split_join; [|exact Hne|].
    + rewrite (named_speakers_join _ Hall). destruct names; congruence.
    + eapply Forall_impl; [|exact Hall]. now intros n (_ & _ & H).
Qed.

Lemma speakers_of_argument_names_witness :
  speakers_of_argument "  , " = ["Host"; "Guest"] /\
  speakers_of_argument (join "," ["Brady"; "Tim"]) = ["Brady"; "Tim"].
Proof.
  destruct speakers_of_argument_names as (_ & Hd & Hj).
  split.
  - apply Hd. reflexivity.
  - apply Hj; [discriminate|]. repeat constructor; discriminate.
Defined.

(** ** The matcher finds a reading when there is one *)

Section Complete.

Context {R : Type}.

Lemma star_greedy_complete p (w : string) :
  forall pre rest (k : string -> string -> option R),
    all p w = true -> k (rev_onto w pre) rest <> None ->
    star_greedy p pre (w ++ rest) k <> None.
Proof.
  induction w as [|c w IH]; intros pre rest k Hall Hk; simpl in *.
  - destruct rest as [|c s]; simpl; [exact Hk|].
    destruct (p c); [|exact Hk].
    destruct (star_greedy p (String c pre) s k); [discriminate|exact Hk].
  - apply andb_true_iff in Hall as [Hc Hw]. rewrite Hc.
    specialize (IH (String c pre) rest k Hw Hk).
    destruct (star_greedy p (String c pre) (w ++ rest) k);
      [discriminate|congruence].
Qed.

Lemma star_lazy_complete p (w : string) :
  forall pre rest (k : string -> string -> option R),
    all p w = true -> k (rev_onto w pre) rest <> None ->
    star_lazy p pre (w ++ rest) k <> None.
Proof.
  induction w as [|c w IH]; intros pre rest k Hall Hk; simpl in *.
  - destruct rest as [|c s]; simpl;
      destruct (k pre _); congruence.
  - apply andb_true_iff in Hall as [Hc Hw]. rewrite Hc.
    destruct (k pre (String c (w ++ rest))); [discriminate|].
    now apply IH.
Qed.

(** Whenever the pattern has a reading that the rest of the pattern
    accepts, the backtracking matcher succeeds. *)
Lemma run_complete (r : regex) :
  forall pre caps w rest caps' (k : string -> string -> captures -> option R),
    matches r pre caps w rest caps' ->
    k (rev_onto w pre) rest caps' <> None ->
    run r pre (w ++ rest) caps k <> None.
Proof.
  induction r as [| | |p|r1 IH1 r2 IH2|r1 IH1|g p|n r1 IH1];
    intros pre caps w rest caps' k M Hk; cbn [run matches] in *.
  - destruct M as [-> ->]. exact Hk.
  - destruct M as (-> & -> & ->). exact Hk.
  - destruct M as ([->| ->] & -> & ->); simpl; exact Hk.
  - destruct M as [(c & Hc & ->) ->]. simpl. now rewrite Hc.
  - destruct M as (w1 & w2 & caps1 & -> & M1 & M2).
    rewrite StrFacts.app_assoc. eapply IH1; [exact M1|].
    eapply IH2; [exact M2|]. now rewrite <- rev_onto_app.
  - destruct M as [M|[-> ->]].
    + specialize (IH1 _ _ _ _ _ k M Hk).
      destruct (run r1 pre (w ++ rest) caps k); [discriminate|congruence].
    + simpl in *. destruct (run r1 pre rest caps k); [discriminate|exact Hk].
  - destruct M as [Hw ->]. destruct g.
    + now apply star_greedy_complete.
    + now apply star_lazy_complete.
  - destruct M as (caps1 & M & ->). eapply IH1; [exact M|].
    now rewrite taken_rev_onto.
Qed.

End Complete.

Lemma matches_seq r1 r2 pre caps w1 w2 rest caps1 caps' :
  matches r1 pre caps w1 (w2 ++ rest) caps1 ->
  matches r2 (rev_onto w1 pre) caps1 w2 rest caps' ->
  matches (Seq r1 r2) pre caps (w1 ++ w2) rest caps'.
Proof. intros M1 M2. cbn [matches]. eauto 8. Qed.

Lemma matches_class (p : ascii -> bool) c pre caps rest :
  p c = true -> matches (Class p) pre caps (String c "") rest caps.
Proof. intros H. cbn [matches]. eauto. Qed.

Lemma matches_chr c pre caps rest :
  matches (Chr c) pre caps (String c "") rest caps.
Proof. apply matches_class, Ascii.eqb_refl. Qed.

(** Every text of the shape of a timestamp is read by the pattern of
    the first group. *)
Lemma timestamp_pattern_reads ts pre caps rest :
  timestamp_shape ts -> matches timestamp_pattern pre caps ts rest caps.
Proof.
  intros (fields & suffix & -> & Hlen & Hall & Hfrac).
  assert (forall pre', matches (Opt (seq [Chr "."; Plus true digit])) pre' caps
                               suffix rest caps) as Hsuf.
  { intros pre'. destruct Hfrac as [->|(frac & -> & Hne & Hd)].
    - right. auto.
    - left. destruct frac as [|q g]; [congruence|].
      simpl in Hd. apply andb_true_iff in Hd as [Hq Hg].
      change (String "." (String q g)) with (String "." "" ++ String q "" ++ g).
      cbn [seq Plus]. eapply matches_seq; [apply matches_chr|].
      eapply matches_seq; [now apply matches_class|].
      cbn [matches]. auto. }
  assert (forall a b pre' c r' (M : regex) w,
             isdecimal a = true -> isdecimal b = true ->
             matches M (String b (String a pre')) c w r' c ->
             matches (Seq (Class digit) (Seq (Class digit) M)) pre' c
                     (String a (String b w)) r' c) as Htwo.
  { intros a b pre' c r' M w Ha Hb HM.
    change (String a (String b w)) with (String a "" ++ String b "" ++ w).
    eapply matches_seq; [now apply matches_class|].
    eapply matches_seq; [now apply matches_class|exact HM]. }
  unfold timestamp_pattern. cbn [seq].
  destruct fields as [|f1 [|f2 [|f3 [|f4 fields]]]]; simpl in Hlen; try lia.
  - inversion Hall as [|? ? (a & b & Ha & Hb & ->) Hall']; subst.
    inversion Hall' as [|? ? (d & e & Hd & He & ->) _]; subst.
    change (join ":" [String a (String b ""); String d (String e "")] ++ suffix)
      with ("" ++ String a (String b (String ":" "" ++ String d (String e suffix)))).
    eapply matches_seq; [right; auto|].
    apply Htwo; auto. eapply matches_seq; [apply matches_chr|].
    change (String d (String e suffix))
      with (String d "" ++ String e "" ++ suffix).
    eapply matches_seq; [now apply matches_class|].
    eapply matches_seq; [now apply matches_class|apply Hsuf].
  - inversion Hall as [|? ? (a & b & Ha & Hb & ->) Hall']; subst.
    inversion Hall' as [|? ? (d & e & Hd & He & ->) Hall'']; subst.
    inversion Hall'' as [|? ? (x & y & Hx & Hy & ->) _]; subst.
    change (join ":" [String a (String b ""); String d (String e "");
                      String x (String y "")] ++ suffix)
      with (String a (String b (String ":" ""))
              ++ String d (String e (String ":" "" ++ String x (String y suffix)))).
    eapply matches_seq.
    + left. change (String a (String b (String ":" "")))
        with (String a "" ++ String b "" ++ String ":" "").
      cbn [seq]. eapply matches_seq; [now apply matches_class|].
      eapply matches_seq; [now apply matches_class|apply matches_chr].
    + apply Htwo; auto. eapply matches_seq; [apply matches_chr|].
      change (String x (String y suffix))
        with (String x "" ++ String y "" ++ suffix).
      eapply matches_seq; [now apply matches_class|].
      eapply matches_seq; [now apply matches_class|apply Hsuf].
Qed.

(** ** The lines the caption pattern accepts *)

Lemma sep_unique c (a a' r r' : string) :
  lacks c a = true -> lacks c a' = true ->
  a ++ String c r = a' ++ String c r' -> a = a' /\ r = r'.
Proof.
  unfold lacks. revert a'. induction a as [|x a IH]; intros a' Ha Ha' E.
  - destruct a' as [|y a']; simpl in *.
    + inversion E. auto.
    + inversion E; subst y. rewrite Ascii.eqb_refl in Ha'. discriminate.
  - destruct a' as [|y a']; simpl in *.
    + inversion E; subst x. rewrite Ascii.eqb_refl in Ha. discriminate.
    + inversion E; subst y.
      apply andb_true_iff in Ha as [_ Ha]. apply andb_true_iff in Ha' as [_ Ha'].
      destruct (IH a' Ha Ha' H1) as [-> ->]. auto.
Qed.

Lemma lstrip_by_app_all p (ws s : string) :
  all p ws = true -> lstrip_by p (ws ++ s) = lstrip_by p s.
Proof.
  induction ws as [|c ws IH]; simpl; [reflexivity|].
  intros H. apply andb_true_iff in H as [Hc Hw]. now rewrite Hc, IH.
Qed.

Lemma strip_app_space (ws s : string) :
  all isspace ws = true -> strip (ws ++ s) = strip s.
Proof. intros H. unfold strip, strip_by. now rewrite lstrip_by_app_all. Qed.

Lemma all_join q sep (parts : list string) :
  all q sep = true -> Forall (fun p => all q p = true) parts ->
  all q (join sep parts) = true.
Proof.
  intros Hsep Hall. induction Hall as [|p ps Hp Hps IH]; [reflexivity|].
  destruct ps as [|p' ps]; [exact Hp|].
  change (join sep (p :: p' :: ps)) with (p ++ sep ++ join sep (p' :: ps)).
  now rewrite !all_app, Hp, Hsep, IH.
Qed.

Lemma timestamp_shape_chars ts :
  timestamp_shape ts -> all timestamp_char ts = true.
Proof.
  intros (fields & suffix & -> & _ & Hall & Hfrac).
  assert (forall s, all isdecimal s = true -> all timestamp_char s = true) as Hd.
  { intros s. apply all_impl. intros c Hc. unfold timestamp_char. now rewrite Hc. }
  rewrite all_app. apply andb_true_iff. split.
  - apply all_join; [reflexivity|].
    eapply Forall_impl; [|exact Hall].
    intros f (a & b & Ha & Hb & ->). apply Hd. simpl. now rewrite Ha, Hb.
  - destruct Hfrac as [->|(frac & -> & _ & Hf)]; [reflexivity|].
    simpl. now apply Hd.
Qed.

Lemma timestamp_char_not_bracket c :
  timestamp_char c = true -> negb (Ascii.eqb c "]") = true.
Proof.
  unfold timestamp_char. intros H.
  apply orb_true_iff in H as [H|H]; [apply orb_true_iff in H as [H|H]|].
  - by_digit c H.
  - apply Ascii.eqb_eq in H. now subst.
  - apply Ascii.eqb_eq in H. now subst.
Qed.

Lemma timestamp_shape_lacks_bracket ts :
  timestamp_shape ts -> lacks "]" ts = true.
Proof.
  intros H. apply timestamp_shape_chars in H. revert H.
  apply all_impl, timestamp_char_not_bracket.
Qed.

Lemma space_not_colon c : isspace c = true -> negb (Ascii.eqb c ":") = true.
Proof.
  destruct c as [[] [] [] [] [] [] [] []]; intros H;
    try discriminate H; reflexivity.
Qed.

Lemma line_regex_reads ts a (name text : string) :
  timestamp_shape ts -> not_colon a = true -> all not_colon name = true ->
  all dot text = true ->
  exists caps,
    matches line_regex "" no_captures
            ("[" ++ ts ++ "]" ++ String a name ++ ":" ++ text) "" caps.
Proof.
  intros Hts Ha Hname Htext. eexists.
  unfold line_regex. cbn [seq].
  replace ("[" ++ ts ++ "]" ++ String a name ++ ":" ++ text)
    with ("" ++ "[" ++ ts ++ "]" ++ "" ++ (String a "" ++ name) ++ ":" ++ ""
             ++ text ++ "")
    by (simpl; now rewrite StrFacts.app_nil_r).
  eapply matches_seq; [cbn [matches]; auto|].
  eapply matches_seq; [apply matches_chr|].
  eapply matches_seq.
  { cbn [matches]. eexists. split; [|reflexivity].
    now apply timestamp_pattern_reads. }
  eapply matches_seq; [apply matches_chr|].
  eapply matches_seq; [cbn [matches]; auto|].
  eapply matches_seq.
  { cbn [matches Plus]. eexists. split; [|reflexivity].
    exists (String a ""), name. eexists. split; [reflexivity|].
    split; [split; [eauto|reflexivity]|]. split; [exact Hname|reflexivity]. }
  eapply matches_seq; [apply matches_chr|].
  eapply matches_seq; [cbn [matches]; auto|].
  eapply matches_seq.
  { cbn [matches]. eexists. split; [|reflexivity]. split; [exact Htext|reflexivity]. }
  cbn [matches]. auto.
Qed.

(** The caption pattern accepts the lines of the form it describes. *)
Lemma line_regex_match_complete :
  forall ts before_colon after_colon,
    timestamp_shape ts ->
    before_colon <> "" -> lacks ":" before_colon = true ->
    lacks LF after_colon = true ->
    exists speaker text,
      line_regex_match ("[" ++ ts ++ "]" ++ before_colon ++ ":" ++ after_colon)
      = Some (ts, speaker, text) /\
      strip speaker = strip before_colon /\
      strip text = strip after_colon.
Proof.
  intros ts A B Hts HA HAc HB.
  set (line := "[" ++ ts ++ "]" ++ A ++ ":" ++ B).
  assert (line_regex_match line <> None) as Hsome.
  { destruct A as [|a name]; [congruence|].
    unfold lacks in HAc. simpl in HAc. apply andb_true_iff in HAc as [Ha Hn].
    destruct (line_regex_reads ts a name B Hts Ha Hn HB) as [caps M].
    unfold line_regex_match, match_.
    pose proof (run_complete line_regex "" no_captures _ "" caps
                  (fun _ _ c => Some c) M ltac:(discriminate)) as Hrun.
    rewrite StrFacts.app_nil_r in Hrun. fold line in Hrun.
    destruct (run line_regex "" line no_captures _); [discriminate|congruence]. }
  destruct (line_regex_match line) as [[[ts' sp] tx]|] eqn:Hm; [|congruence].
  destruct (line_regex_match_sound _ _ _ _ Hm)
    as (Hts' & ws1 & ws2 & eol & Hline & Hws1 & Hsp & Hspc & Hws2 & Htx & Heol).
  unfold line in Hline. simpl in Hline. inversion Hline as [E]. clear Hline.
  destruct (sep_unique "]" ts ts' _ _ (timestamp_shape_lacks_bracket _ Hts)
              (timestamp_shape_lacks_bracket _ Hts') E) as [<- E1].
  rewrite <- (StrFacts.app_assoc ws1 sp) in E1.
  assert (lacks ":" (ws1 ++ sp) = true) as Hl.
  { unfold lacks in *. rewrite all_app, Hspc, andb_true_r.
    revert Hws1. apply all_impl, space_not_colon. }
  destruct (sep_unique ":" A (ws1 ++ sp) _ _ HAc Hl E1) as [-> E2].
  exists sp, tx. split; [reflexivity|]. split.
  - symmetry. now apply strip_app_space.
  - destruct Heol as [->| ->].
    + rewrite StrFacts.app_nil_r in E2. subst B. symmetry.
      now apply strip_app_space.
    + exfalso. subst B. unfold lacks in HB.
      rewrite !all_app in HB. simpl in HB.
      rewrite !andb_false_r in HB. discriminate.
Qed.

(** X7. The caption pattern accepts every line made of a timestamp of
    two or three two-digit fields (with or without a fraction) in square
    brackets, a text without colon that is not empty, a colon and a text
    without newline; the timestamp it captures is the one in the
    brackets, and the speaker and the text it captures are, once trimmed,
    the two texts trimmed. *)
Theorem caption_pattern_accepts :
  forall ts before_colon after_colon,
    timestamp_shape ts ->
    before_colon <> "" -> lacks ":" before_colon = true ->
    lacks LF after_colon = true ->
    exists speaker text,
      line_regex_match ("[" ++ ts ++ "]" ++ before_colon ++ ":" ++ after_colon)
      = Some (ts, speaker, text) /\
      strip speaker = strip before_colon /\
      strip text = strip after_colon.
Proof. exact line_regex_match_complete. Qed.

Lemma caption_pattern_accepts_witness :
  exists speaker text,
    line_regex_match ("[" ++ "00:01:02.5" ++ "]" ++ " Ann" ++ ":" ++ " hi there")
    = Some ("00:01:02.5", speaker, text) /\
    strip speaker = strip " Ann" /\ strip text = strip " hi there".
Proof.
  apply caption_pattern_accepts; try reflexivity; [|discriminate].
  exists ["00"; "01"; "02"], ".5". split; [reflexivity|].
  split; [now right|]. split.
  - repeat constructor; eexists _, _; repeat split; reflexivity.
  - right. exists "5". repeat split. discriminate.
Defined.

(** ** What the output is made of *)

Lemma shows_flushed ritems st :
  shows ritems st -> flushed_lines st = List.rev (map render ritems).
Proof.
  unfold shows, flushed_lines, segment_line.
  destruct (current_speaker st) as [sp|].
  - intros (s & ps & rclosed & -> & Ho & _ & -> & ->). simpl. now rewrite Ho.
  - now intros [Ho _].
Qed.

Lemma shows_initial : shows [] initial_state.
Proof. unfold shows. simpl. auto. Qed.

Lemma item_sound_incl lines lines' it :
  incl lines lines' -> item_sound lines it -> item_sound lines' it.
Proof.
  intros Hi. destruct it as [t|s sp ps]; simpl.
  - intros (Hne & Hm & l & Hl & E). eauto 6.
  - intros (l & ts & sp0 & tx0 & more & Hl & Hm & Hts & Hsp & -> & Hmore).
    exists l, ts, sp0, tx0, more. repeat split; auto.
    eapply Forall_impl; [|exact Hmore].
    intros p (Hp & l' & ts' & sp' & tx' & Hl' & H'). split; [exact Hp|].
    exists l', ts', sp', tx'. intuition.
Qed.

(** One line more: the items of the state after the body of the loop. *)
Lemma shows_loop_body max lines ritems st i l :
  In l lines ->
  shows ritems st -> Forall (item_sound lines) ritems -> separated max ritems ->
  exists ritems',
    shows ritems' (loop_body max st i l) /\
    Forall (item_sound lines) ritems' /\ separated max ritems'.
Proof.
  intros Hin Hshow Hsound Hsep.
  destruct (string_dec (strip l) "") as [E|Hne].
  { rewrite (loop_body_blank _ _ _ _ E). eauto. }
  pose proof (shows_flushed _ _ Hshow) as Hfl.
  destruct (loop_body_cases max st i l Hne)
    as [[Hm ->]|(ts & sp & tx & s & Hm & Hts & [[Hnew ->]|[Hsame ->]])].
  - exists (Pass (strip l) :: ritems). split; [|split].
    + unfold shows. simpl. rewrite Hfl. auto.
    + constructor; [|exact Hsound]. simpl. eauto.
    + exact Hsep.
  - exists (Seg s (strip sp) [strip tx] :: ritems). split; [|split].
    + unfold shows. simpl. exists s, [strip tx], ritems. rewrite Hfl. auto 6.
    + constructor; [|exact Hsound]. simpl.
      exists l, ts, sp, tx, []. repeat split; auto.
    + simpl. split; [|exact Hsep].
      destruct ritems as [|[t|s0 sp0 ps0] rest]; auto.
      unfold shows in Hshow. unfold start_new_segment in Hnew.
      destruct (current_speaker st) as [cur|]; [|now destruct Hshow].
      destruct Hshow as (s1 & ps1 & rc & E & _ & Hs1 & _).
      inversion E; subst. rewrite Hs1 in Hnew.
      destruct (String.eqb_spec (strip sp) cur) as [->|Hd]; [|now left].
      simpl in Hnew. right. now apply Z.gtb_lt in Hnew; lia.
  - pose proof (start_new_segment_false _ _ _ _ Hsame) as Hcur.
    unfold shows in Hshow. rewrite Hcur in Hshow.
    destruct Hshow as (s1 & ps1 & rc & -> & Ho & Hs1 & Hts1 & Hps).
    exists (Seg s1 (strip sp)
                (if truthy (strip tx) then ps1 ++ [strip tx] else ps1)%list
                :: rc).
    split; [|split].
    + unfold shows. simpl. rewrite Hcur. rewrite Hps. eauto 10.
    + inversion Hsound as [|? ? H1 H2]; subst. constructor; [|exact H2].
      simpl in *.
      destruct H1 as (l0 & ts0 & sp0 & tx0 & more & Hl0 & Hm0 & Hts0 & Hsp0
                      & -> & Hmore).
      destruct (truthy (strip tx)) eqn:Et.
      * exists l0, ts0, sp0, tx0, (more ++ [strip tx])%list.
        repeat split; auto. apply Forall_app. split; [exact Hmore|].
        constructor; [|constructor]. split; [now apply truthy_true|].
        exists l, ts, sp, tx. auto.
      * exists l0, ts0, sp0, tx0, more. repeat split; auto.
    + exact Hsep.
Qed.

Lemma shows_loop max lines ls :
  forall i ritems st,
    incl ls lines ->
    shows ritems st -> Forall (item_sound lines) ritems -> separated max ritems ->
    exists ritems',
      shows ritems' (loop max i ls st) /\
      Forall (item_sound lines) ritems' /\ separated max ritems'.
Proof.
  induction ls as [|l ls IH]; intros i ritems st Hi Hshow Hsound Hsep; simpl.
  - eauto.
  - destruct (shows_loop_body max lines ritems st i l) as (r' & H1 & H2 & H3);
      auto. { apply Hi. now left. }
    apply (IH (S i) r' _); auto. intros x Hx. apply Hi. now right.
Qed.

(** The output as items. *)
Lemma process_lines_items max lines :
  exists ritems,
    process_lines max lines = List.rev (map render ritems) /\
    Forall (item_sound lines) ritems /\ separated max ritems.
Proof.
  destruct (shows_loop max lines lines 0 [] initial_state)
    as (ritems & Hshow & Hsound & Hsep); auto using shows_initial, incl_refl.
  - exact I.
  - exists ritems. split; [|auto]. now apply shows_flushed.
Qed.

(** X8. Nothing in the output is made up: every line of the output is
    a trimmed line of the input that does not match the caption pattern
    and is not empty, or a segment line made of the time parsed in a
    caption line of the input, written anew, of the speaker of that line,
    and of its text followed by texts of caption lines of the same
    speaker. *)
Theorem output_lines_come_from_input :
  forall max lines out,
    In out (process_lines max lines) ->
    (exists l,
        In l lines /\ strip l <> "" /\ line_regex_match (strip l) = None /\
        out = strip l) \/
    (exists l ts speaker text more,
        In l lines /\
        line_regex_match (strip l) = Some (ts, speaker, text) /\
        out = format_segment
                (Some (seconds_to_timestamp (timestamp_to_seconds ts)))
                (strip speaker) (strip text :: more) /\
        Forall (fun p => p <> "" /\ caption_of lines (strip speaker) p) more).
Proof.
  intros max lines out Hin.
  destruct (process_lines_items max lines) as (ritems & E & Hsound & _).
  rewrite E in Hin. apply in_rev, in_map_iff in Hin as (it & <- & Hit).
  rewrite Forall_forall in Hsound. specialize (Hsound it Hit).
  destruct it as [t|s sp ps]; simpl in *.
  - destruct Hsound as (Hne & Hm & l & Hl & <-). left. eauto.
  - destruct Hsound as (l & ts & sp0 & tx0 & more & Hl & Hm & Hts & <- & ->
                        & Hmore).
    right. exists l, ts, sp0, tx0, more. rewrite Hts. auto.
Qed.

Lemma output_lines_come_from_input_witness :
  let lines := ["[00:00] A: Hi"; "  "; "[00:02] A: there"] in
  let out := "[00:00:00] A: Hi there" in
  (exists l,
      In l lines /\ strip l <> "" /\ line_regex_match (strip l) = None /\
      out = strip l) \/
  (exists l ts speaker text more,
      In l lines /\
      line_regex_match (strip l) = Some (ts, speaker, text) /\
      out = format_segment
              (Some (seconds_to_timestamp (timestamp_to_seconds ts)))
              (strip speaker) (strip text :: more) /\
      Forall (fun p => p <> "" /\ caption_of lines (strip speaker) p) more).
Proof.
  intros lines out. apply (output_lines_come_from_input 30).
  left. reflexivity.
Defined.

(** ** More on trimming and joining *)

Lemma rstrip_by_app_keep p (a b : string) :
  rstrip_by p b <> "" -> rstrip_by p (a ++ b) = a ++ rstrip_by p b.
Proof.
  intros Hb. induction a as [|x a IH]; [reflexivity|].
  cbn [append rstrip_by]. rewrite IH.
  destruct (a ++ rstrip_by p b) eqn:E; [|reflexivity].
  destruct a; simpl in E; [contradiction|discriminate].
Qed.

Lemma rstrip_by_app_keep_eq p (a b : string) :
  rstrip_by p b = b -> b <> "" -> rstrip_by p (a ++ b) = a ++ b.
Proof.
  intros E Hne. rewrite rstrip_by_app_keep; rewrite E; auto.
Qed.

(** A text that is its own trimming and is not empty starts with a
    character that is not white space and has none at its end. *)
Lemma stripped_first (s : string) :
  strip s = s -> s <> "" ->
  exists c t, s = String c t /\ isspace c = false /\ rstrip_by isspace s = s.
Proof.
  unfold strip, strip_by. intros E Hne.
  destruct (lstrip_by isspace s) as [|a u] eqn:L.
  - simpl in E. congruence.
  - pose proof (lstrip_by_first _ _ _ _ L) as Ha.
    rewrite (rstrip_by_cons _ _ _ Ha) in E.
    exists a, (rstrip_by isspace u). split; [now symmetry|]. split; [exact Ha|].
    rewrite <- E at 1. rewrite (rstrip_by_cons _ _ _ Ha), rstrip_by_idem.
    exact E.
Qed.

Lemma strip_of_first c (t : string) :
  isspace c = false -> strip (String c t) = String c (rstrip_by isspace t).
Proof.
  intros Hc. unfold strip, strip_by.
  now rewrite (lstrip_by_head _ _ _ Hc), (rstrip_by_cons _ _ _ Hc).
Qed.

Lemma join_cons sep p q (ps : list string) :
  join sep (p :: q :: ps) = p ++ sep ++ join sep (q :: ps).
Proof. reflexivity. Qed.

Lemma join_nonempty_first sep (parts : list string) c t :
  join sep (String c t :: parts) = String c (t ++ match parts with
                                                  | [] => ""
                                                  | _ => sep ++ join sep parts
                                                  end).
Proof.
  destruct parts as [|q ps]; simpl; [now rewrite StrFacts.app_nil_r|reflexivity].
Qed.

(** Texts that are trimmed and not empty, joined with one space, give
    a trimmed text. *)
Lemma strip_join_space (parts : list string) :
  Forall (fun p => p <> "" /\ strip p = p) parts ->
  strip (join " " parts) = join " " parts.
Proof.
  intros Hall.
  assert (parts <> [] ->
          exists c t, join " " parts = String c t /\ isspace c = false /\
                      rstrip_by isspace (join " " parts) = join " " parts) as H.
  { induction Hall as [|p ps [Hne Hs] Hps IH]; [congruence|]. intros _.
    destruct (stripped_first p Hs Hne) as (c & t & -> & Hc & Hr).
    exists c. rewrite join_nonempty_first. eexists. split; [reflexivity|].
    split; [exact Hc|]. rewrite <- join_nonempty_first.
    destruct ps as [|q ps]; [exact Hr|].
    destruct IH as (c' & t' & E & _ & Hr'); [discriminate|].
    rewrite join_cons, <- StrFacts.app_assoc.
    apply rstrip_by_app_keep_eq; [exact Hr'|]. rewrite E. discriminate. }
  destruct parts as [|p ps]; [reflexivity|].
  destruct H as (c & t & E & Hc & Hr); [discriminate|].
  rewrite E in *. rewrite (strip_of_first _ _ Hc).
  rewrite (rstrip_by_cons _ _ _ Hc) in Hr. exact Hr.
Qed.

(** ** Reading the output again *)

Lemma two_digits_decimals v : 0 <= v < 100 -> two_decimals (two_digits v).
Proof.
  intros Hv. exists (digit_char (v / 10)), (digit_char (v mod 10)).
  repeat split; apply digit_char_decimal.
  - split; [apply Z.div_pos; lia|apply Z.div_lt_upper_bound; lia].
  - apply Z.mod_pos_bound. lia.
Qed.

Lemma formatted_shape s :
  0 <= s < 360000 -> timestamp_shape (seconds_to_timestamp (Some s)).
Proof.
  intros Hs. rewrite seconds_to_timestamp_eq. cbn [clamped].
  rewrite (Z.max_r 0 s) by lia.
  assert (0 <= s / 3600 < 100) as Hh
      by (split; [apply Z.div_pos; lia|apply Z.div_lt_upper_bound; lia]).
  pose proof (Z.mod_pos_bound s 3600 ltac:(lia)) as Hr.
  assert (0 <= s mod 3600 / 60 < 100) as Hm
      by (split; [apply Z.div_pos; lia|apply Z.div_lt_upper_bound; lia]).
  pose proof (Z.mod_pos_bound (s mod 3600) 60 ltac:(lia)) as Hsec.
  rewrite !format_02_two_digits by lia.
  exists [two_digits (s / 3600); two_digits (s mod 3600 / 60);
          two_digits (s mod 3600 mod 60)], "".
  split; [rewrite StrFacts.app_nil_r; reflexivity|].
  split; [now right|]. split; [|now left].
  repeat constructor; apply two_digits_decimals; lia.
Qed.

Lemma filter_none_ok (ps : list string) :
  Forall (fun p => strip p = p /\ lacks LF p = true) ps ->
  Forall (fun p => p <> "" /\ strip p = p) (filter_none ps) /\
  Forall (fun p => all (fun x => negb (Ascii.eqb x LF)) p = true) (filter_none ps).
Proof.
  unfold filter_none. induction 1 as [|p ps [Hs Hl] Hps [IH1 IH2]]; simpl.
  - split; constructor.
  - destruct (truthy p) eqn:E; [|auto]. apply truthy_true in E.
    split; constructor; auto.
Qed.

(** The line of a segment is a caption line with the same time, the
    same speaker and, as its text, the texts of the segment joined. *)
Lemma segment_line_read_again s sp ps :
  item_ok (Seg s sp ps) ->
  exists ts sp' tx',
    line_regex_match (strip (render (Seg s sp ps))) = Some (ts, sp', tx') /\
    timestamp_to_seconds ts = Some s /\
    strip sp' = sp /\ strip tx' = join " " (filter_none ps).
Proof.
  intros (Hs & Hsp & Hcolon & Hps).
  set (T := seconds_to_timestamp (Some s)).
  set (J := join " " (filter_none ps)).
  destruct (filter_none_ok ps Hps) as [Hok Hlf].
  assert (strip J = J) as HJ by now apply strip_join_space.
  assert (lacks LF J = true) as HJl by (apply all_join; [reflexivity|exact Hlf]).
  set (B := rstrip_by isspace (" " ++ J)).
  assert (strip (render (Seg s sp ps))
          = "[" ++ T ++ "]" ++ (" " ++ sp) ++ ":" ++ B) as ->.
  { unfold render, format_segment. cbn [fstr]. fold T. fold J.
    unfold strip, strip_by. cbn [append]. rewrite lstrip_by_head by reflexivity.
    rewrite rstrip_by_cons by reflexivity. f_equal.
    replace (T ++ String "]" (String " " (sp ++ String ":" (String " " J))))
      with ((T ++ String "]" (String " " sp)) ++ String ":" (String " " J))
      by (rewrite !StrFacts.app_assoc; reflexivity).
    rewrite rstrip_by_app_keep.
    - rewrite rstrip_by_cons by reflexivity.
      rewrite !StrFacts.app_assoc. reflexivity.
    - rewrite rstrip_by_cons by reflexivity. discriminate. }
  destruct (line_regex_match_complete T (" " ++ sp) B) as (sp' & tx' & Hm & E1 & E2).
  - apply formatted_shape, Hs.
  - discriminate.
  - exact Hcolon.
  - unfold B, lacks. apply all_rstrip_by. exact HJl.
  - exists T, sp', tx'. split; [exact Hm|]. split; [|split].
    + unfold T. rewrite timestamp_to_seconds_of_formatted. cbn [clamped].
      f_equal. lia.
    + rewrite E1. change (" " ++ sp) with (String " " "" ++ sp).
      rewrite strip_app_space by reflexivity. exact Hsp.
    + rewrite E2. unfold B. destruct J as [|c t] eqn:EJ; [reflexivity|].
      destruct (stripped_first (String c t) HJ ltac:(discriminate))
        as (c' & t' & _ & _ & Hr).
      rewrite rstrip_by_app_keep_eq; [|exact Hr|discriminate].
      change (" " ++ String c t) with (String " " "" ++ String c t).
      rewrite strip_app_space by reflexivity. exact HJ.
Qed.

Lemma item_sound_ok lines it :
  forallb (caption_before 360000) lines = true ->
  item_sound lines it -> item_ok it.
Proof.
  intros Hlim. destruct it as [t|s sp ps]; simpl.
  - intros (Hne & Hm & l & _ & <-). repeat split; auto using strip_idem.
  - intros (l & ts & sp0 & tx0 & more & Hl & Hm & Hts & <- & -> & Hmore).
    destruct (line_regex_match_sound _ _ _ _ Hm)
      as (Hshape & ws1 & ws2 & eol & _ & _ & _ & Hc & _ & Hdot & _).
    destruct (timestamp_shape_range _ Hshape) as (n & Hn & Hr).
    rewrite Hts in Hn. inversion Hn; subst n.
    rewrite forallb_forall in Hlim. specialize (Hlim l Hl).
    unfold caption_before in Hlim. rewrite Hm, Hts in Hlim.
    apply Z.ltb_lt in Hlim.
    split; [lia|]. split; [apply strip_idem|].
    split; [now apply all_strip|].
    constructor.
    + split; [apply strip_idem|now apply all_strip].
    + eapply Forall_impl; [|exact Hmore].
      intros p (_ & l' & ts' & sp' & tx' & _ & Hm' & _ & <-).
      destruct (line_regex_match_sound _ _ _ _ Hm')
        as (_ & ? & ? & ? & _ & _ & _ & _ & _ & Hdot' & _).
      split; [apply strip_idem|now apply all_strip].
Qed.

Lemma flushed_on_no_match st line :
  flushed_lines (on_no_match st line) = (flushed_lines st ++ [line])%list.
Proof. reflexivity. Qed.

Lemma flushed_on_new_segment st speaker seconds text :
  flushed_lines (on_new_segment st speaker seconds text)
  = (flushed_lines st
       ++ [format_segment (Some (seconds_to_timestamp (Some seconds)))
                          speaker [text]])%list.
Proof. reflexivity. Qed.

Lemma format_segment_joined ts speaker (parts : list string) :
  format_segment ts speaker [join " " (filter_none parts)]
  = format_segment ts speaker parts.
Proof. unfold format_segment. now rewrite join_filter_none_single. Qed.

(** The loop on the lines of items that are fit to be read again writes
    these lines again. *)
Lemma loop_on_rendered max ritems :
  Forall item_ok ritems -> separated max ritems ->
  forall i,
    let st := loop max i (List.rev (map render ritems)) initial_state in
    flushed_lines st = List.rev (map render ritems) /\
    match ritems with
    | Seg s sp _ :: _ =>
        current_speaker st = Some sp /\
        current_segment_start_seconds st = Some s
    | _ => current_speaker st = None
    end.
Proof.
  induction ritems as [|it r IH]; intros Hok Hsep i.
  - simpl. auto.
  - inversion Hok as [|? ? Hit Hr]; subst.
    assert (separated max r) as Hsep' by (destruct it; simpl in Hsep; tauto).
    specialize (IH Hr Hsep' i). cbn zeta in IH. destruct IH as [Hfl Hst].
    cbn [map List.rev]. cbn zeta. rewrite loop_app. cbn [loop].
    set (st := loop max i (List.rev (map render r)) initial_state) in *.
    set (j := (i + List.length (List.rev (map render r)))%nat).
    destruct it as [t|s sp ps].
    + destruct Hit as (Hne & Hs & Hm). cbn [render].
      rewrite loop_body_no_match by (rewrite Hs; auto).
      rewrite Hs, flushed_on_no_match, Hfl. split; reflexivity.
    + destruct (segment_line_read_again s sp ps Hit)
        as (ts & sp' & tx' & Hm & Hts & Hsp & Htx).
      rewrite (loop_body_caption _ _ _ _ _ _ _ _ Hm Hts), Hsp, Htx.
      assert (start_new_segment max st sp s = true) as ->.
      { unfold start_new_segment. destruct r as [|[t0|s0 sp0 ps0] r'].
        - now rewrite Hst.
        - now rewrite Hst.
        - destruct Hst as [-> ->]. simpl in Hsep. destruct Hsep as [[Hd|Hg] _].
          + apply String.eqb_neq in Hd. now rewrite Hd.
          + destruct (negb (sp =? sp0)%string); [reflexivity|].
            apply Z.gtb_lt. lia. }
      rewrite flushed_on_new_segment, format_segment_joined, Hfl.
      split; [reflexivity|]. split; reflexivity.
Qed.

Lemma process_lines_again_aux max lines :
  forallb (caption_before 360000) lines = true ->
  process_lines max (process_lines max lines) = process_lines max lines.
Proof.
  intros Hlim.
  destruct (process_lines_items max lines) as (ritems & E & Hsound & Hsep).
  rewrite E. unfold process_lines at 1.
  apply (loop_on_rendered max ritems); [|exact Hsep].
  eapply Forall_impl; [|exact Hsound]. intros it. now apply item_sound_ok.
Qed.

(** ** Lines of text *)

Lemma all_rev_onto q (a acc : string) :
  all q (rev_onto a acc) = all q a && all q acc.
Proof.
  revert acc. induction a as [|c a IH]; intros acc; simpl; [reflexivity|].
  rewrite IH. simpl. now rewrite andb_assoc, (andb_comm (all q a) (q c)).
Qed.

Lemma all_rev q (a : string) : all q (rev a) = all q a.
Proof. unfold rev. now rewrite all_rev_onto, andb_true_r. Qed.

Lemma splitlines_from_nonbreak_tail (s : string) :
  (forall cur,
      all nonbreak cur = true ->
      Forall (fun l => all nonbreak l = true) (splitlines_from cur s)) /\
  (forall c t, s = String c t ->
               Forall (fun l => all nonbreak l = true) (splitlines_from "" t)).
Proof.
  induction s as [|c s [IH1 IH2]]; split.
  - intros cur Hcur. simpl. destruct cur; [constructor|].
    constructor; [|constructor]. now rewrite all_rev.
  - discriminate.
  - intros cur Hcur. simpl.
    assert (all nonbreak (rev cur) = true) as Hr by now rewrite all_rev.
    destruct (islinebreak c) eqn:Hb.
    + destruct (Ascii.eqb c CR).
      * destruct s as [|c' s']; [constructor; auto|].
        destruct (Ascii.eqb c' LF); constructor; eauto.
      * constructor; auto.
    + apply IH1. simpl. unfold nonbreak at 1. now rewrite Hb.
  - intros c0 t E. inversion E; subst. now apply IH1.
Qed.

Lemma splitlines_nonbreak (s : string) :
  Forall (fun l => all nonbreak l = true) (splitlines s).
Proof. now apply (splitlines_from_nonbreak_tail s). Qed.

Lemma splitlines_from_app (w : string) :
  forall cur rest,
    all nonbreak w = true ->
    splitlines_from cur (w ++ rest) = splitlines_from (rev_onto w cur) rest.
Proof.
  induction w as [|c w IH]; intros cur rest H; simpl; [reflexivity|].
  simpl in H. apply andb_true_iff in H as [Hc Hw].
  unfold nonbreak in Hc. apply negb_true_iff in Hc. rewrite Hc. now apply IH.
Qed.

(** Lines without line terminator, none of them empty, are the lines of
    the text they make when joined with newlines. *)
Lemma splitlines_join (lines : list string) :
  Forall (fun l => l <> "" /\ all nonbreak l = true) lines ->
  splitlines (join nl lines) = lines.
Proof.
  unfold splitlines.
  induction 1 as [|l ls [Hne Hl] Hls IH]; [reflexivity|].
  assert (rev (rev l) = l) as Hrr by apply rev_involutive.
  destruct ls as [|l' ls].
  - simpl. rewrite <- (StrFacts.app_nil_r l) at 1.
    rewrite splitlines_from_app by exact Hl. simpl.
    fold (rev l). destruct (rev l) eqn:E.
    + unfold rev in Hrr. simpl in Hrr. congruence.
    + now rewrite Hrr.
  - rewrite join_cons. unfold nl at 1. cbn [append].
    rewrite splitlines_from_app by exact Hl.
    cbn [splitlines_from]. fold (rev l).
    change (islinebreak LF) with true. change (Ascii.eqb LF CR) with false.
    cbn iota. now rewrite Hrr, IH.
Qed.

Lemma timestamp_char_nonbreak c : timestamp_char c = true -> nonbreak c = true.
Proof.
  unfold timestamp_char. intros H.
  apply orb_true_iff in H as [H|H]; [apply orb_true_iff in H as [H|H]|].
  - by_digit c H.
  - apply Ascii.eqb_eq in H. now subst.
  - apply Ascii.eqb_eq in H. now subst.
Qed.

Lemma seconds_to_timestamp_nonbreak x :
  all nonbreak (seconds_to_timestamp x) = true.
Proof.
  rewrite seconds_to_timestamp_eq.
  pose proof (clamped_nonneg x) as Hn. set (n := clamped x) in *.
  assert (forall v, 0 <= v -> all nonbreak (format_02 v) = true) as Hf.
  { intros v Hv. generalize (format_02_decimal v Hv). apply all_impl.
    intros c Hc. apply timestamp_char_nonbreak. unfold timestamp_char.
    now rewrite Hc. }
  pose proof (Z.mod_pos_bound n 3600 ltac:(lia)) as Hr.
  rewrite !all_app, !Hf; [reflexivity| | |].
  - apply Z.mod_pos_bound. lia.
  - apply Z.div_pos; lia.
  - apply Z.div_pos; lia.
Qed.

(** The groups of a match hold no character that the line does not. *)
Lemma caption_chars q line ts speaker text :
  line_regex_match line = Some (ts, speaker, text) ->
  all q line = true -> all q speaker = true /\ all q text = true.
Proof.
  intros Hm Hq.
  destruct (line_regex_match_sound _ _ _ _ Hm)
    as (_ & ws1 & ws2 & eol & -> & _).
  rewrite !all_app in Hq.
  repeat match goal with
         | H : _ && _ = true |- _ => apply andb_true_iff in H as [? ?]
         end.
  auto.
Qed.

Lemma caption_of_chars q lines speaker p :
  Forall (fun l => all q l = true) lines ->
  caption_of lines speaker p -> all q p = true.
Proof.
  intros Hq (l & ts & sp & tx & Hl & Hm & _ & <-).
  rewrite Forall_forall in Hq.
  destruct (caption_chars q _ _ _ _ Hm (all_strip _ _ (Hq l Hl))) as [_ H].
  now apply all_strip.
Qed.

Lemma render_nonbreak lines it :
  Forall (fun l => all nonbreak l = true) lines ->
  item_sound lines it -> all nonbreak (render it) = true.
Proof.
  intros Hq. destruct it as [t|s sp ps]; cbn [render item_sound].
  - intros (_ & _ & l & Hl & <-). rewrite Forall_forall in Hq.
    now apply all_strip, Hq.
  - intros (l & ts & sp0 & tx0 & more & Hl & Hm & Hts & <- & -> & Hmore).
    pose proof Hq as Hq'. rewrite Forall_forall in Hq'.
    destruct (caption_chars nonbreak _ _ _ _ Hm (all_strip _ _ (Hq' l Hl)))
      as [Hsp Htx].
    unfold format_segment. cbn [fstr].
    rewrite !all_app, seconds_to_timestamp_nonbreak, (all_strip _ _ Hsp).
    change (all nonbreak "[") with true.
    change (all nonbreak "] ") with true.
    change (all nonbreak ": ") with true. cbn [andb].
    apply all_join; [reflexivity|]. unfold filter_none.
    apply Forall_forall. intros p Hp. apply filter_In in Hp as [Hp _].
    destruct Hp as [<-|Hp]; [now apply all_strip|].
    rewrite Forall_forall in Hmore. destruct (Hmore p Hp) as [_ Hc].
    exact (caption_of_chars _ _ _ _ Hq Hc).
Qed.

Lemma render_first lines it :
  item_sound lines it ->
  exists c t, render it = String c t /\ isspace c = false.
Proof.
  destruct it as [t|s sp ps]; cbn [render item_sound].
  - intros (Hne & _ & l & _ & <-).
    destruct (stripped_first (strip l) (strip_idem l) Hne) as (c & t & E & Hc & _).
    eauto.
  - intros _. unfold format_segment. simpl. eauto.
Qed.

(** The lines written are fit to be lines of a text. *)
Lemma process_lines_text_lines max lines :
  Forall (fun l => all nonbreak l = true) lines ->
  Forall (fun o => (exists c t, o = String c t /\ isspace c = false)
                   /\ all nonbreak o = true)
         (process_lines max lines).
Proof.
  intros Hq.
  destruct (process_lines_items max lines) as (ritems & -> & Hsound & _).
  apply Forall_rev, Forall_map.
  eapply Forall_impl; [|exact Hsound]. intros it Hit.
  split; [exact (render_first _ _ Hit)|exact (render_nonbreak _ _ Hq Hit)].
Qed.

Lemma text_lines_plain (out : list string) :
  Forall (fun o => (exists c t, o = String c t /\ isspace c = false)
                   /\ all nonbreak o = true) out ->
  Forall (fun l => l <> "" /\ all nonbreak l = true) out.
Proof.
  apply Forall_impl. intros o [(c & t & -> & _) H].
  split; [discriminate|exact H].
Qed.

Lemma process_transcript_lines_aux input_text max :
  splitlines (process_transcript input_text max)
  = process_lines max (splitlines (strip input_text)).
Proof.
  unfold process_transcript. apply splitlines_join, text_lines_plain.
  apply process_lines_text_lines, splitlines_nonbreak.
Qed.

(** X9. The lines of the text [process_transcript] returns are the
    lines the loop wrote, one for one: none of them is empty, none starts
    with white space and none holds a line terminator. *)
Theorem output_text_has_the_lines_written :
  forall input_text max,
    let out := process_lines max (splitlines (strip input_text)) in
    splitlines (process_transcript input_text max) = out /\
    Forall (fun o => (exists c t, o = String c t /\ isspace c = false)
                     /\ all nonbreak o = true) out.
Proof.
  intros input_text max out. split.
  - apply process_transcript_lines_aux.
  - apply process_lines_text_lines, splitlines_nonbreak.
Qed.

(** ** Processing the output again *)

Lemma join_snoc sep (ls : list string) o :
  ls <> [] -> join sep (ls ++ [o]) = join sep ls ++ sep ++ o.
Proof.
  induction ls as [|p ps IH]; [congruence|]. intros _.
  destruct ps as [|q ps]; [reflexivity|].
  change ((p :: q :: ps) ++ [o])%list with (p :: q :: (ps ++ [o]))%list.
  rewrite !join_cons.
  change (q :: (ps ++ [o]))%list with ((q :: ps) ++ [o])%list.
  rewrite IH by discriminate. now rewrite !StrFacts.app_assoc.
Qed.

Lemma join_first sep (ls : list string) :
  Forall (fun o => exists c t, o = String c t /\ isspace c = false) ls ->
  ls <> [] -> exists c t, join sep ls = String c t /\ isspace c = false.
Proof.
  intros Hall Hne. destruct Hall as [|o ls (c & t & -> & Hc) _]; [congruence|].
  rewrite join_nonempty_first. eauto.
Qed.

(** Trimming a text of lines that start without white space trims the
    end of its last line. *)
Lemma strip_text_lines (ls : list string) o :
  Forall (fun o => exists c t, o = String c t /\ isspace c = false) ls ->
  (exists c t, o = String c t /\ isspace c = false) ->
  strip (join nl (ls ++ [o])) = join nl (ls ++ [rstrip_by isspace o]).
Proof.
  intros Hls (c & t & -> & Hc). rewrite (rstrip_by_cons _ _ _ Hc).
  destruct ls as [|p ps].
  - apply strip_of_first, Hc.
  - rewrite !join_snoc by discriminate.
    destruct (join_first nl (p :: ps) Hls) as (c' & t' & -> & Hc');
      [discriminate|].
    change (String c' t' ++ nl ++ String c t)
      with (String c' (t' ++ nl ++ String c t)).
    rewrite (strip_of_first _ _ Hc'), <- (StrFacts.app_assoc t' nl).
    rewrite rstrip_by_app_keep;
      rewrite (rstrip_by_cons _ _ _ Hc); [|discriminate].
    now rewrite StrFacts.app_assoc.
Qed.

Lemma strip_rstrip (s : string) : strip (rstrip_by isspace s) = strip s.
Proof.
  unfold strip, strip_by. induction s as [|c s IH]; [reflexivity|].
  destruct (isspace c) eqn:Hc.
  - cbn [rstrip_by lstrip_by]. rewrite Hc.
    destruct (rstrip_by isspace s) as [|a r] eqn:E.
    + rewrite <- IH. reflexivity.
    + cbn [lstrip_by]. rewrite Hc. exact IH.
  - rewrite (rstrip_by_cons _ _ _ Hc), !(lstrip_by_head _ _ _ Hc).
    now rewrite !(rstrip_by_cons _ _ _ Hc), rstrip_by_idem.
Qed.

Lemma process_lines_rstrip_last max (ls : list string) o :
  process_lines max (ls ++ [rstrip_by isspace o])
  = process_lines max (ls ++ [o]).
Proof.
  rewrite (output_of_trimmed_lines_aux max (ls ++ [o])).
  rewrite (output_of_trimmed_lines_aux max (ls ++ [rstrip_by isspace o])).
  now rewrite !map_app, !filter_app; cbn [map]; rewrite strip_rstrip.
Qed.

Lemma process_transcript_again_aux input_text max :
  forallb (caption_before 360000) (splitlines (strip input_text)) = true ->
  process_lines max (splitlines (strip (process_transcript input_text max)))
  = process_lines max (splitlines (strip input_text)).
Proof.
  intros Hlim. unfold process_transcript.
  set (lines := splitlines (strip input_text)) in *.
  pose proof (process_lines_text_lines max lines
                (splitlines_nonbreak (strip input_text))) as Hout.
  fold lines in Hout.
  pose proof (process_lines_again_aux max lines Hlim) as Hagain.
  destruct (process_lines max lines) as [|o0 os]; [reflexivity|].
  destruct (@exists_last _ (o0 :: os)) as (ls & o & El); [discriminate|].
  rewrite El in *. clear El. rewrite <- Hagain at 2. clear Hagain.
  apply Forall_app in Hout as [Hls Ho]. apply Forall_inv in Ho.
  rewrite strip_text_lines;
    [|eapply Forall_impl; [|exact Hls]; now intros ? [? _]|apply Ho].
  rewrite splitlines_join; [apply process_lines_rstrip_last|].
  apply Forall_app. split.
  - now apply text_lines_plain.
  - constructor; [|constructor]. destruct Ho as [(c & t & -> & Hc) Hnb].
    rewrite (rstrip_by_cons _ _ _ Hc). split; [discriminate|].
    rewrite <- (rstrip_by_cons _ _ _ Hc). now apply all_rstrip_by.
Qed.

(** Past the hundredth hour a segment line is no caption line any more:
    read again it passes through, trimmed. *)
Remark hundred_hours_not_read_again :
  process_transcript "[99:99:99] A:" 30 = "[100:40:39] A: " /\
  process_transcript (process_transcript "[99:99:99] A:" 30) 30
  = "[100:40:39] A:".
Proof. split; reflexivity. Qed.

(** X10. [process_transcript] is idempotent on every text whose captions
    are timed before the hundredth hour: its output, processed again with
    the same bound, comes back as it is. *)
Theorem process_transcript_idempotent :
  forall input_text max,
    forallb (caption_before 360000) (splitlines (strip input_text)) = true ->
    process_transcript (process_transcript input_text max) max
    = process_transcript input_text max.
Proof.
  intros input_text max Hlim. unfold process_transcript at 1. cbv zeta.
  rewrite (process_transcript_again_aux input_text max Hlim). reflexivity.
Qed.

Lemma process_transcript_idempotent_witness :
  let input_text :=
    "[00:00] A: Hi" ++ nl ++ "[00:02] A: there" ++ nl ++ "[END]" ++ nl
    ++ "  [00:05] B: Hey  " in
  process_transcript (process_transcript input_text 30) 30
  = process_transcript input_text 30.
Proof.
  intros input_text. apply process_transcript_idempotent. reflexivity.
Defined.

(** ** Segments that follow each other *)

Lemma separated_tail max it (ritems : list item) :
  separated max (it :: ritems) -> separated max ritems.
Proof. destruct it; cbn [separated]; tauto. Qed.

Lemma separated_adjacent max (pre post : list item) s2 sp2 ps2 s1 sp1 ps1 :
  separated max (pre ++ Seg s2 sp2 ps2 :: Seg s1 sp1 ps1 :: post) ->
  sp2 <> sp1 \/ s2 - s1 > max.
Proof.
  induction pre as [|it pre IH]; cbn [app].
  - cbn [separated]. tauto.
  - intros H. apply IH. exact (separated_tail _ _ _ H).
Qed.

(** A line of the output that reads as a caption is the line of a
    segment, with the time and the speaker of the segment. *)
Lemma rendered_caption it ts speaker text seconds :
  item_ok it ->
  line_regex_match (strip (render it)) = Some (ts, speaker, text) ->
  timestamp_to_seconds ts = Some seconds ->
  exists parts, it = Seg seconds (strip speaker) parts.
Proof.
  destruct it as [t|s sp ps]; intros Hok Hm Hts.
  - destruct Hok as (_ & Hs & Hnone). cbn [render] in Hm. congruence.
  - destruct (segment_line_read_again s sp ps Hok)
      as (ts' & sp' & tx' & Hm' & Hts' & Hsp & _).
    rewrite Hm in Hm'. inversion Hm'; subst ts' sp' tx'.
    exists ps. congruence.
Qed.

Lemma process_lines_adjacent max lines a o1 o2 b :
  process_lines max lines = (a ++ o1 :: o2 :: b)%list ->
  exists it1 it2 pre post,
    render it1 = o1 /\ render it2 = o2 /\
    item_sound lines it1 /\ item_sound lines it2 /\
    separated max (pre ++ it2 :: it1 :: post).
Proof.
  intros E.
  destruct (process_lines_items max lines) as (ritems & E' & Hsound & Hsep).
  rewrite E', <- map_rev in E.
  apply map_eq_app in E as (ia & ib & Er & _ & Eb).
  destruct ib as [|it1 [|it2 ib]]; try discriminate.
  cbn [map] in Eb. injection Eb as E1 E2 _.
  assert (ritems = (List.rev ib ++ it2 :: it1 :: List.rev ia)%list) as ->.
  { rewrite <- (List.rev_involutive ritems), Er, List.rev_app_distr.
    cbn [List.rev].
    now rewrite <- !List.app_assoc. }
  rewrite Forall_forall in Hsound.
  exists it1, it2, (List.rev ib), (List.rev ia).
  repeat split; auto; apply Hsound, in_or_app; right; simpl; auto.
Qed.

(** X11. No two segments that could have been merged are left side by
    side: when two lines that follow each other in the output both read
    as captions, their speakers differ or the second is timed more than
    the maximal duration after the first. *)
Theorem adjoining_segments_apart :
  forall max lines a o1 o2 b ts1 speaker1 text1 ts2 speaker2 text2 s1 s2,
    forallb (caption_before 360000) lines = true ->
    process_lines max lines = (a ++ o1 :: o2 :: b)%list ->
    line_regex_match (strip o1) = Some (ts1, speaker1, text1) ->
    line_regex_match (strip o2) = Some (ts2, speaker2, text2) ->
    timestamp_to_seconds ts1 = Some s1 ->
    timestamp_to_seconds ts2 = Some s2 ->
    strip speaker2 <> strip speaker1 \/ s2 - s1 > max.
Proof.
  intros max lines a o1 o2 b ts1 sp1 tx1 ts2 sp2 tx2 s1 s2
         Hlim E Hm1 Hm2 Hs1 Hs2.
  destruct (process_lines_adjacent _ _ _ _ _ _ E)
    as (it1 & it2 & pre & post & <- & <- & Hi1 & Hi2 & Hsep).
  destruct (rendered_caption it1 _ _ _ _ (item_sound_ok _ _ Hlim Hi1) Hm1 Hs1)
    as (ps1 & ->).
  destruct (rendered_caption it2 _ _ _ _ (item_sound_ok _ _ Hlim Hi2) Hm2 Hs2)
    as (ps2 & ->).
  exact (separated_adjacent _ _ _ _ _ _ _ _ _ Hsep).
Qed.

Lemma adjoining_segments_apart_witness :
  strip "A" <> strip "A" \/ 40 - 0 > 30.
Proof.
  apply (adjoining_segments_apart
           30 ["[00:00] A: Hi"; "[00:40] A: there"] []
           "[00:00:00] A: Hi" "[00:00:40] A: there" []
           "00:00:00" "A" "Hi" "00:00:40" "A" "there" 0 40);
    reflexivity.
Defined.

(** ** Lines with an unusable timestamp *)

(** A line that opens with a bracketed text which is not a timestamp of
    the pattern does not match the pattern. *)
Lemma bracket_not_timestamp_no_match bracketed rest :
  lacks "]" bracketed = true -> ~ timestamp_shape bracketed ->
  line_regex_match ("[" ++ bracketed ++ "]" ++ rest) = None.
Proof.
  intros Hb Hshape.
  destruct (line_regex_match ("[" ++ bracketed ++ "]" ++ rest))
    as [[[ts sp] tx]|] eqn:Hm; [exfalso|reflexivity].
  destruct (line_regex_match_sound _ _ _ _ Hm)
    as (Hts & ws1 & ws2 & eol & Hline & _).
  simpl in Hline. inversion Hline as [E]. clear Hline.
  destruct (sep_unique "]" bracketed ts _ _ Hb
              (timestamp_shape_lacks_bracket _ Hts) E) as [-> _].
  exact (Hshape Hts).
Qed.

(** C2, amended.  A line whose bracketed timestamp is unusable, as every
    text is that [timestamp_to_seconds] rejects, does not match the caption
    pattern and is not dropped: the body of the loop writes the line of the
    open segment, when there is one, then the line itself, trimmed, logs no
    warning and leaves no segment open.  Wherever the line stands, it is in
    the output after what the lines before it give and before what the
    lines after it give on their own; and a caption line that follows it
    appears as its own segment line. *)
Theorem bad_timestamp_line_passes_through :
  (forall bracketed,
      timestamp_to_seconds bracketed = None -> ~ timestamp_shape bracketed) /\
  (forall max line bracketed rest,
      strip line = "[" ++ bracketed ++ "]" ++ rest ->
      lacks "]" bracketed = true ->
      ~ timestamp_shape bracketed ->
      line_regex_match (strip line) = None /\
      (forall st i,
          let st' := loop_body max st i line in
          output_lines st'
          = match current_speaker st with
            | Some speaker =>
                (output_lines st ++ [segment_line st speaker; strip line])%list
            | None => (output_lines st ++ [strip line])%list
            end /\
          current_speaker st' = None /\
          warnings st' = warnings st) /\
      (forall pre post,
          process_lines max (pre ++ line :: post)
          = (process_lines max pre ++ [strip line]
                           ++ process_lines max post)%list) /\
      (forall cap ts speaker text,
          line_regex_match (strip cap) = Some (ts, speaker, text) ->
          process_lines max [line; cap]
          = [strip line;
             "[" ++ seconds_to_timestamp (timestamp_to_seconds ts) ++ "] "
                 ++ strip speaker ++ ": " ++ strip text])).
Proof.
  split.
  - intros b Hnone Hshape.
    destruct (timestamp_shape_parses _ Hshape) as [s Hs]. congruence.
  - intros max line b rest Eline Hb Hshape.
    assert (strip line <> "") as Hne by (rewrite Eline; discriminate).
    assert (line_regex_match (strip line) = None) as Hm
        by (rewrite Eline; now apply bracket_not_timestamp_no_match).
    assert (forall pre post,
               process_lines max (pre ++ line :: post)
               = (process_lines max pre ++ [strip line]
                                ++ process_lines max post)%list) as H
        by (intros; now apply process_lines_no_match_split).
    split; [exact Hm|split; [|split; [exact H|]]].
    + intros st i st'. unfold st'.
      rewrite (loop_body_no_match _ _ _ _ Hne Hm).
      split; [|split; reflexivity].
      cbn [on_no_match output_lines]. unfold flushed_lines.
      destruct (current_speaker st) as [speaker|]; [|reflexivity].
      now rewrite <- List.app_assoc.
    + intros cap ts speaker text Hc.
      rewrite (H [] [cap] : process_lines max [line; cap] = _).
      now rewrite (process_lines_single_caption _ _ _ _ _ Hc).
Qed.

Lemma bad_timestamp_line_passes_through_witness :
  line_regex_match "[bad] A: broken" = None /\
  process_lines 30 ["[bad] A: broken"; "[00:00] A: Hi"]
  = ["[bad] A: broken"; "[00:00:00] A: Hi"].
Proof.
  destruct bad_timestamp_line_passes_through as [Hbad H].
  destruct (H 30 "[bad] A: broken" "bad" " A: broken"
              eq_refl eq_refl (Hbad "bad" eq_refl)) as (Hm & _ & _ & Hc).
  split; [exact Hm|].
  exact (Hc "[00:00] A: Hi" "00:00" "A" "Hi" eq_refl).
Defined.
